(** * condor core: the application bootstrap layer

  A shallow embedding of the [core] package ([App] and its methods:
    [SetEnv], [Bootstrap], [Run], [handleRoute], [SetAppMode],
    [IntegratePackages], [FeaturesControl], [useMiddlewares],
    [registerRoutes], [getHTTPSHost], [getHTTPHost]).

  The package is glue over the Go standard library and the gin HTTP
  framework. Process-wide state (the environment, gin's globals, the
  registries of the sub-engines) lives in a [World]; the methods run in a
  state monad over the [App] and the [World], with panics and with the
  "blocked for ever in a listener" outcome made explicit.

  A gin engine is its middleware and its routes, each route with the full
  path and the chain of handlers it got when it was registered. A call
  into gin gives the engine back or is one of gin's panics: too many
  handlers, no handler, a verb and path registered twice, a path the
  routing tree refuses. *)

From Stdlib Require Import String Ascii List ZArith Lia Bool.
From stdpp Require Import base strings gmap list.

Import ListNotations.
Local Open Scope string_scope.

(** ** Go's [strconv] and [strings], as far as the package uses them *)

(** Go's [error] values are modelled by their message. *)
Definition error := string.

Module strconv.

(** [strconv.ParseBool]: the value and the error; the value is [false]
    whenever the error is set. *)
Definition ParseBool (str : string) : bool * option error :=
  if existsb (String.eqb str) ["1"; "t"; "T"; "TRUE"; "true"; "True"]
  then (true, None)
  else if existsb (String.eqb str) ["0"; "f"; "F"; "FALSE"; "false"; "False"]
  then (false, None)
  else (false, Some ("strconv.ParseBool: parsing " ++ str ++ ": invalid syntax")).

End strconv.

Module strings.

(** The six ASCII white-space bytes of Go's [asciiSpace] table. *)
Definition asciiSpace (c : ascii) : bool :=
  existsb (Ascii.eqb c) ["009"; "010"; "011"; "012"; "013"; " "]%char.

Fixpoint TrimLeftASCII (s : string) : string :=
  match s with
  | String c s' => if asciiSpace c then TrimLeftASCII s' else s
  | EmptyString => EmptyString
  end.

(** Drops the trailing white space: a byte is kept when it is not white
    space or when something is kept after it. *)
Fixpoint TrimRightASCII (s : string) : string :=
  match s with
  | String c s' =>
      match TrimRightASCII s' with
      | EmptyString => if asciiSpace c then EmptyString else String c EmptyString
      | t => String c t
      end
  | EmptyString => EmptyString
  end.

(** [strings.TrimSpace] on a string of ASCII bytes: the library's general
    function also trims the Unicode white space outside ASCII, which the
    development leaves to the [TrimSpace] parameter below. *)
Definition TrimSpaceASCII (s : string) : string :=
  TrimRightASCII (TrimLeftASCII s).

(** A string of white space only; a string that starts, or ends, with a
    white-space byte. *)
Fixpoint allSpace (s : string) : bool :=
  match s with
  | String c s' => asciiSpace c && allSpace s'
  | EmptyString => true
  end.

Definition startsWithSpace (s : string) : bool :=
  match s with
  | String c _ => asciiSpace c
  | EmptyString => false
  end.

Fixpoint endsWithSpace (s : string) : bool :=
  match s with
  | String c EmptyString => asciiSpace c
  | String _ s' => endsWithSpace s'
  | EmptyString => false
  end.

(** [strings.ToLower] on ASCII letters. *)
Definition lowerByte (c : ascii) : ascii :=
  let n := nat_of_ascii c in
  if (65 <=? n)%nat && (n <=? 90)%nat then ascii_of_nat (n + 32) else c.

Fixpoint ToLower (s : string) : string :=
  match s with
  | String c s' => String (lowerByte c) (ToLower s')
  | EmptyString => EmptyString
  end.

End strings.

(** ** gin: handlers, verbs and engines *)

Module gin.

Definition ReleaseMode := "release".
Definition TestMode := "test".
Definition DebugMode := "debug".

(** The HTTP verbs an engine has a registration method for. *)
Inductive Verb := GET | POST | DELETE | PATCH | PUT | OPTIONS | HEAD.

(** [http.MethodGet] and the like: the verb as it goes on the wire. *)
Definition methodName (v : Verb) : string :=
  match v with
  | GET => "GET" | POST => "POST" | DELETE => "DELETE" | PATCH => "PATCH"
  | PUT => "PUT" | OPTIONS => "OPTIONS" | HEAD => "HEAD"
  end.

#[global] Instance Verb_eq_dec : EqDecision Verb.
Proof. solve_decision. Defined.

(** A chain of handlers must stay under [abortIndex] handlers. *)
Definition abortIndex : nat := 63.

Definition beginsWithSlash (path : string) : bool :=
  match path with
  | String c _ => Ascii.eqb c "/"
  | EmptyString => false
  end.

Section Handlers.
(** The handler functions the application brings along. *)
Context {UserHandler : Type}.

(** Two functions of gin that are taken as they are: [joinPaths], which
    joins the base path of a group and a relative path and cleans the
    result, and the insertion into the routing tree of a verb, which
    refuses (with a panic) a path that is in conflict with the paths
    already there: [treeRejects routes v path] is the value of that panic,
    if any, [routes] being the verbs and paths registered so far. *)
Variable joinPaths : string -> string -> string.
Variable treeRejects : list (Verb * string) -> Verb -> string -> option error.

(** A [gin.HandlerFunc]: the two that [gin.Default] installs, the
    closure [Run] builds for the redirect, or one of the application. *)
Inductive HandlerFunc :=
| Logger
| Recovery
| secureFunc
| Custom (h : UserHandler).

(** An engine: the middleware of its root group, in the order of the [Use]
    calls, and its routes in the order of their registration, each with the
    verb, the full path and the chain of handlers it was registered
    with. *)
Record Engine := mkEngine {
  Handlers : list HandlerFunc;
  trees : list (Verb * string * list HandlerFunc)
}.

Definition New : Engine := mkEngine [] [].

(** [engine.Use(h)]: the handler goes to the end of the middleware; gin
    then rebuilds its fallback chains and panics when the middleware has
    reached [abortIndex] handlers. The result is the engine or the value of
    the panic. *)
Definition Use (e : Engine) (h : HandlerFunc) : Engine + error :=
  let handlers := (Handlers e ++ [h])%list in
  if (abortIndex <=? length handlers)%nat then inr "too many handlers"
  else inl (mkEngine handlers (trees e)).

(** [gin.Default()]: a new engine that uses the logger and the recovery. *)
Definition Default : Engine := mkEngine [Logger; Recovery] [].

(** The verb [v] has a route at [path] already. *)
Definition registered (v : Verb) (path : string) (e : Engine) : bool :=
  existsb (fun r => bool_decide (fst (fst r) = v) && String.eqb (snd (fst r)) path)
    (trees e).

(** [engine.GET(relativePath, handlers...)] and its six siblings, on the
    root group of the engine (base path "/"): the chain is the middleware
    of the moment followed by the handlers; gin panics when the chain is
    too long or empty, when the full path does not begin with a slash,
    when the verb has a route at the full path already, or when the
    routing tree refuses the path; otherwise the route is added. *)
Definition handle (v : Verb) (e : Engine) (relativePath : string)
    (handlers : list HandlerFunc) : Engine + error :=
  let absolutePath := joinPaths "/" relativePath in
  let chain := (Handlers e ++ handlers)%list in
  if (abortIndex <=? length chain)%nat then inr "too many handlers"
  else if negb (beginsWithSlash absolutePath) then inr "path must begin with '/'"
  else if (length chain =? 0)%nat then inr "there must be at least one handler"
  else if registered v absolutePath e
       then inr ("handlers are already registered for path '" ++ absolutePath ++ "'")
  else match treeRejects (map fst (trees e)) v absolutePath with
       | Some err => inr err
       | None => inl (mkEngine (Handlers e) (trees e ++ [(v, absolutePath, chain)]))
       end.

End Handlers.
Arguments HandlerFunc : clear implicits.
Arguments Engine : clear implicits.

(** The two functions of gin on simple routes, for the sample runs: a
    clean path that begins with a slash is its own join with the root, and
    among paths without wildcards the tree refuses nothing but a path it
    has already (which [handle] sees to). *)
Definition joinClean (base relativePath : string) : string :=
  if String.eqb relativePath "" then base else relativePath.

Definition noWildcards (routes : list (Verb * string)) (v : Verb) (path : string)
  : option error := None.

End gin.

(** ** The process: app, world, outcomes *)

Section Core.

(** [FeaturesRef] stands for [*Features], whose struct is declared in another
    file of the package; [UserHandler] for the application's handler
    functions; [TrimSpace] for Go's [strings.TrimSpace]; [joinPaths] and
    [treeRejects] for the two functions of gin described above. *)
Context {FeaturesRef UserHandler : Type}.
Variable TrimSpace : string -> string.
Variable joinPaths : string -> string -> string.
Variable treeRejects : list (gin.Verb * string) -> gin.Verb -> string -> option error.

Local Abbreviation HandlerFunc := (gin.HandlerFunc UserHandler).
Local Abbreviation Engine := (gin.Engine UserHandler).

Record App := mkApp { Features : FeaturesRef }.

(** [routing.Route] and [routing.Router], as [handleRoute] and
    [registerRoutes] read them. *)
Record Route := mkRoute {
  Method : string;
  Path : string;
  Handlers : list HandlerFunc
}.

Record Router := mkRouter { GetRoutes : list Route }.

(** The five sub-engines [Bootstrap] initialises. *)
Inductive SubEngine :=
  pkgintegrator | middlewaresengine | routing | database | cache.

Definition File := string.

Inductive Writer := WFile (f : File) | Stdout.

(** What a [go] statement of the package starts. *)
Inductive GoCall :=
  RunTLS (e : Engine) (addr certFile keyFile : string).

(** The calls that leave the process, in the order they are made. *)
Inductive Event :=
| EvSetenv (key value : string)
| EvOpenFile (name : string) (flag perm : Z)
| EvClose (f : File)
| EvSetMode (value : string)
| EvNew (sub : SubEngine)
| EvRun (e : Engine) (addr : string)
| EvGo (c : GoCall).

(** The process-wide state. [returned] holds what the calls handed to
    goroutines return (an error, or nothing while they serve): values that
    Go drops, kept here to be seen. The last three fields are not state but
    the answers of the operating system: whether a file opens, whether a
    listener started on the calling goroutine comes back (with an error) or
    serves for ever, and what a spawned call returns. *)
Record World := mkWorld {
  environ : gmap string string;
  modeName : string;
  DefaultWriter : list Writer;
  integrations : list HandlerFunc;
  middlewares : list HandlerFunc;
  router : Router;
  trace : list Event;
  returned : list (GoCall * option error);
  openFileResult : string -> Z -> Z -> option error;
  listenResult : list Event -> option error;
  taskResult : GoCall -> option error
}.

Definition set_environ (f : gmap string string -> gmap string string) (w : World) : World :=
  mkWorld (f (environ w)) (modeName w) (DefaultWriter w) (integrations w)
    (middlewares w) (router w) (trace w) (returned w) (openFileResult w)
    (listenResult w) (taskResult w).

Definition set_modeName (m : string) (w : World) : World :=
  mkWorld (environ w) m (DefaultWriter w) (integrations w)
    (middlewares w) (router w) (trace w) (returned w) (openFileResult w)
    (listenResult w) (taskResult w).

Definition set_DefaultWriter (d : list Writer) (w : World) : World :=
  mkWorld (environ w) (modeName w) d (integrations w)
    (middlewares w) (router w) (trace w) (returned w) (openFileResult w)
    (listenResult w) (taskResult w).

Definition set_trace (t : list Event) (w : World) : World :=
  mkWorld (environ w) (modeName w) (DefaultWriter w) (integrations w)
    (middlewares w) (router w) t (returned w) (openFileResult w)
    (listenResult w) (taskResult w).

Definition set_taskResult (r : GoCall -> option error) (w : World) : World :=
  mkWorld (environ w) (modeName w) (DefaultWriter w) (integrations w)
    (middlewares w) (router w) (trace w) (returned w) (openFileResult w)
    (listenResult w) r.

Definition set_returned (rs : list (GoCall * option error)) (w : World) : World :=
  mkWorld (environ w) (modeName w) (DefaultWriter w) (integrations w)
    (middlewares w) (router w) (trace w) rs (openFileResult w)
    (listenResult w) (taskResult w).

(** What the initialiser of a sub-engine does: it comes back and has
    changed the world, it panics with a value, or it does not come back (it
    blocks, or it ends the process). The sub-engines are other packages. *)
Inductive SubResult :=
| Initialised (w : World)
| Panicked (v : error)
| Stuck.

Variable initSubEngine : SubEngine -> World -> SubResult.

Record State := mkState { app : App; world : World }.

(** A call returns, panics, or never comes back: the goroutine serves in
    a listener, or a sub-engine has taken it or the process away. *)
Inductive Outcome (A : Type) :=
| Done (a : A) (s : State)
| Panic (v : error) (s : State)
| Blocked (s : State).
Arguments Done {A}.
Arguments Panic {A}.
Arguments Blocked {A}.

Definition final {A} (o : Outcome A) : State :=
  match o with Done _ s | Panic _ s | Blocked s => s end.

Definition M (A : Type) := State -> Outcome A.

Definition ret {A} (a : A) : M A := fun s => Done a s.

Definition bind {A B} (m : M A) (k : A -> M B) : M B := fun s =>
  match m s with
  | Done a s' => k a s'
  | Panic v s' => Panic v s'
  | Blocked s' => Blocked s'
  end.

Notation "x <- m ;; k" := (bind m (fun x => k))
  (at level 100, m at next level, right associativity).
Notation "m ;; k" := (bind m (fun _ => k))
  (at level 100, right associativity).

Definition panic {A} (v : error) : M A := fun s => Panic v s.

Definition block {A} : M A := fun s => Blocked s.

Definition getWorld : M World := fun s => Done (world s) s.

Definition modifyWorld (f : World -> World) : M unit := fun s =>
  Done tt (mkState (app s) (f (world s))).

Definition putApp (a : App) : M unit := fun s => Done tt (mkState a (world s)).

Definition emit (ev : Event) : M unit :=
  modifyWorld (fun w => set_trace (trace w ++ [ev]) w).

(** [defer]: the deferred call runs when the body returns or panics; a panic
    of the body goes on after it. *)
Definition defer {A} (deferred : M unit) (body : M A) : M A := fun s =>
  match body s with
  | Done a s1 =>
      match deferred s1 with
      | Done _ s2 => Done a s2
      | Panic v s2 => Panic v s2
      | Blocked s2 => Blocked s2
      end
  | Panic v s1 =>
      match deferred s1 with
      | Done _ s2 => Panic v s2
      | Panic v' s2 => Panic v' s2
      | Blocked s2 => Blocked s2
      end
  | Blocked s1 => Blocked s1
  end.

(** [for _, x := range l], the loop body updating [acc]. *)
Fixpoint range {A S} (l : list A) (body : A -> S -> M S) (acc : S) : M S :=
  match l with
  | [] => ret acc
  | x :: l' => acc' <- body x acc ;; range l' body acc'
  end.

(** ** The operating system and gin's globals *)

(** The value of the variable [key]: empty when it is unset. *)
Definition getenv (env : gmap string string) (key : string) : string :=
  default "" (env !! key).

Definition os_Getenv (key : string) : M string :=
  w <- getWorld ;; ret (getenv (environ w) key).

Fixpoint hasByte (c : ascii) (s : string) : bool :=
  match s with
  | String d s' => Ascii.eqb c d || hasByte c s'
  | EmptyString => false
  end.

(** The check of Go's [syscall.Setenv]: no empty key, no [=] or NUL in the
    key, no NUL in the value. *)
Definition validEnv (key value : string) : bool :=
  negb (String.eqb key "") && negb (hasByte "=" key) && negb (hasByte "000" key)
  && negb (hasByte "000" value).

Definition os_Setenv (key value : string) : M (option error) :=
  emit (EvSetenv key value) ;;
  if validEnv key value
  then modifyWorld (set_environ (insert key value)) ;; ret None
  else ret (Some "setenv: invalid argument").

Definition O_APPEND : Z := 1024.
Definition O_CREATE : Z := 64.

Definition os_OpenFile (name : string) (flag perm : Z) : M (File + error) :=
  emit (EvOpenFile name flag perm) ;;
  w <- getWorld ;;
  match openFileResult w name flag perm with
  | None => ret (inl name)
  | Some err => ret (inr err)
  end.

Definition file_Close (f : File) : M unit := emit (EvClose f).

(** [gin.SetMode]: the empty string selects the debug mode, an unknown name
    panics. *)
Definition gin_SetMode (value : string) : M unit :=
  emit (EvSetMode value) ;;
  let value := if String.eqb value "" then gin.DebugMode else value in
  if String.eqb value gin.DebugMode || String.eqb value gin.ReleaseMode
     || String.eqb value gin.TestMode
  then modifyWorld (set_modeName value)
  else panic ("gin mode unknown: " ++ value).

(** [engine.Run(addr)]: comes back only with an error. *)
Definition engine_Run (e : Engine) (addr : string) : M error :=
  emit (EvRun e addr) ;;
  w <- getWorld ;;
  match listenResult w (trace w) with
  | Some err => ret err
  | None => block
  end.

(** [go c]: the call is handed to a new goroutine. What it returns is
    received by nobody: it goes to [returned], which no code reads. *)
Definition go (c : GoCall) : M unit :=
  emit (EvGo c) ;;
  modifyWorld (fun w => set_returned (returned w ++ [(c, taskResult w c)]) w).

Definition subEngine_New (sub : SubEngine) : M unit :=
  emit (EvNew sub) ;;
  w <- getWorld ;;
  match initSubEngine sub w with
  | Initialised w' => modifyWorld (fun _ => w')
  | Panicked v => panic v
  | Stuck => block
  end.

(** A call into gin: its result, or its panic. *)
Definition liftGin {A} (r : A + error) : M A :=
  match r with
  | inl a => ret a
  | inr v => panic v
  end.

Definition engine_Use (e : Engine) (h : HandlerFunc) : M Engine :=
  liftGin (gin.Use e h).

Definition engine_handle (v : gin.Verb) (e : Engine) (relativePath : string)
    (handlers : list HandlerFunc) : M Engine :=
  liftGin (gin.handle joinPaths treeRejects v e relativePath handlers).

Definition pkgintegrator_GetIntegrations : M (list HandlerFunc) :=
  w <- getWorld ;; ret (integrations w).

Definition middlewaresengine_GetMiddlewares : M (list HandlerFunc) :=
  w <- getWorld ;; ret (middlewares w).

Definition routing_ResolveRouter : M Router :=
  w <- getWorld ;; ret (router w).

(** ** The methods of [App] *)

Definition GORM := "gorm".
Definition CACHE := "cache".
Definition logsFilePath := "logs/app.log".

Definition New (features : FeaturesRef) : App := mkApp features.

(** The loop of [SetEnv] over the entries taken in the order [kvs]. *)
Definition SetEnv_loop (kvs : list (string * string)) : M unit :=
  range kvs
    (fun kv _ => _ <- os_Setenv (TrimSpace (fst kv)) (TrimSpace (snd kv)) ;; ret tt)
    tt.

(** Go leaves the order of a [range] over a map open: [SetEnv env] runs the
    loop over the entries of [env] in one order or another. *)
Definition SetEnv (env : gmap string string) (s : State) (o : Outcome unit) : Prop :=
  exists kvs, kvs ≡ₚ map_to_list env /\ o = SetEnv_loop kvs s.

Definition Bootstrap : M unit :=
  subEngine_New pkgintegrator ;;
  subEngine_New middlewaresengine ;;
  subEngine_New routing ;;
  subEngine_New database ;;
  subEngine_New cache.

Definition handleRoute (route : Route) (ginEngine : Engine) : M Engine :=
  if String.eqb (Method route) "get" then
    engine_handle gin.GET ginEngine (Path route) (Handlers route)
  else if String.eqb (Method route) "post" then
    engine_handle gin.POST ginEngine (Path route) (Handlers route)
  else if String.eqb (Method route) "delete" then
    engine_handle gin.DELETE ginEngine (Path route) (Handlers route)
  else if String.eqb (Method route) "patch" then
    engine_handle gin.PATCH ginEngine (Path route) (Handlers route)
  else if String.eqb (Method route) "put" then
    engine_handle gin.PUT ginEngine (Path route) (Handlers route)
  else if String.eqb (Method route) "options" then
    engine_handle gin.OPTIONS ginEngine (Path route) (Handlers route)
  else if String.eqb (Method route) "head" then
    engine_handle gin.HEAD ginEngine (Path route) (Handlers route)
  else ret ginEngine.

Definition SetAppMode (mode : string) : M unit :=
  if String.eqb mode gin.ReleaseMode || String.eqb mode gin.TestMode
     || String.eqb mode gin.DebugMode
  then gin_SetMode mode
  else gin_SetMode gin.TestMode.

Definition IntegratePackages (engine : Engine) (handlerFuncs : list HandlerFunc)
  : M Engine :=
  range handlerFuncs (fun pkgIntegration e => engine_Use e pkgIntegration) engine.

Definition FeaturesControl (features : FeaturesRef) : M unit :=
  putApp (mkApp features).

Definition useMiddlewares (engine : Engine) : M Engine :=
  ms <- middlewaresengine_GetMiddlewares ;;
  range ms (fun middleware e => engine_Use e middleware) engine.

Definition registerRoutes (router : Router) (engine : Engine) : M Engine :=
  range (GetRoutes router) handleRoute engine.

Definition getHTTPSHost : M string :=
  host <- os_Getenv "APP_HTTPS_HOST" ;;
  host <- (if String.eqb host "" then os_Getenv "APP_HTTP_HOST" else ret host) ;;
  ret (if String.eqb host "" then "localhost" else host).

Definition getHTTPHost : M string :=
  host <- os_Getenv "APP_HTTP_HOST" ;;
  ret (if String.eqb host "" then "localhost" else host).

Definition Run (portNumber : string) : M unit :=
  let portNumber := if String.eqb portNumber "" then "80" else portNumber in
  opened <- os_OpenFile logsFilePath (Z.lor (Z.lor O_CREATE O_APPEND) O_CREATE) 644 ;;
  match opened with
  | inr err => panic err
  | inl logsFile =>
    defer (file_Close logsFile) (
      modifyWorld (set_DefaultWriter [WFile logsFile; Stdout]) ;;
      let httpGinEngine : Engine := gin.Default in
      let httpsGinEngine : Engine := gin.Default in
      https <- os_Getenv "APP_HTTPS_ON" ;;
      let httpsOn := fst (strconv.ParseBool https) in
      redirect <- os_Getenv "APP_REDIRECT_HTTP_TO_HTTPS" ;;
      let redirectToHTTPS := fst (strconv.ParseBool redirect) in
      (if httpsOn then
         integrations <- pkgintegrator_GetIntegrations ;;
         httpsGinEngine <- IntegratePackages httpsGinEngine integrations ;;
         router <- routing_ResolveRouter ;;
         httpsGinEngine <- registerRoutes router httpsGinEngine ;;
         certFile <- os_Getenv "APP_HTTPS_CERT_FILE_PATH" ;;
         keyFile <- os_Getenv "APP_HTTPS_KEY_FILE_PATH" ;;
         h <- getHTTPSHost ;;
         let host := h ++ ":443" in
         go (RunTLS httpsGinEngine host certFile keyFile)
       else ret tt) ;;
      (if httpsOn && redirectToHTTPS then
         redirectEngine <- engine_Use gin.New gin.secureFunc ;;
         h <- getHTTPHost ;;
         let host := h ++ ":" ++ portNumber in
         _ <- engine_Run redirectEngine host ;; ret tt
       else ret tt) ;;
      integrations <- pkgintegrator_GetIntegrations ;;
      httpGinEngine <- IntegratePackages httpGinEngine integrations ;;
      router <- routing_ResolveRouter ;;
      httpGinEngine <- registerRoutes router httpGinEngine ;;
      h <- getHTTPHost ;;
      let host := h ++ ":" ++ portNumber in
      _ <- engine_Run httpGinEngine host ;; ret tt)
  end.

(** ** Reading a run: the vocabulary of the statements *)

(** The seven method strings [handleRoute] has a case for. *)
Definition recognized : list string :=
  ["get"; "post"; "delete"; "patch"; "put"; "options"; "head"].

Definition verbs : list gin.Verb :=
  [gin.GET; gin.POST; gin.DELETE; gin.PATCH; gin.PUT; gin.OPTIONS; gin.HEAD].

(** The verb whose HTTP name, in lower case, is the method string [m]. *)
Definition verbOf (m : string) : option gin.Verb :=
  find (fun v => String.eqb m (strings.ToLower (gin.methodName v))) verbs.

(** gin takes the registration of [handlers] at [relativePath] under [v]
    on the engine [e]: none of its panics is met. *)
Definition ginAccepts (v : gin.Verb) (e : Engine) (relativePath : string)
    (handlers : list HandlerFunc) : bool :=
  let absolutePath := joinPaths "/" relativePath in
  let chain := (gin.Handlers e ++ handlers)%list in
  (length chain <? gin.abortIndex)%nat
  && gin.beginsWithSlash absolutePath
  && negb (length chain =? 0)%nat
  && negb (gin.registered v absolutePath e)
  && match treeRejects (map fst (gin.trees e)) v absolutePath with
     | None => true
     | Some _ => false
     end.

(** The route [handleRoute] has gin add for [route] on [e]: at the path
    joined to the root, with the middleware of [e] before the handlers of
    the route. *)
Definition routeEntry (v : gin.Verb) (e : Engine) (route : Route)
  : gin.Verb * string * list HandlerFunc :=
  (v, joinPaths "/" (Path route), (gin.Handlers e ++ Handlers route)%list).

(** The routes [registerRoutes] has gin add for [routes] on an engine with
    the middleware [mw]: one per route with a recognized method, in the
    order of [routes]. *)
Definition routeEntries (mw : list HandlerFunc) (routes : list Route)
  : list (gin.Verb * string * list HandlerFunc) :=
  omap (fun route =>
          match verbOf (Method route) with
          | Some v =>
              Some (v, joinPaths "/" (Path route), (mw ++ Handlers route)%list)
          | None => None
          end) routes.

(** A loop of calls into gin without the state: the first panic ends it. *)
Fixpoint foldGin {A S} (f : A -> S -> S + error) (l : list A) (acc : S)
  : S + error :=
  match l with
  | [] => inl acc
  | x :: l' =>
      match f x acc with
      | inl acc' => foldGin f l' acc'
      | inr v => inr v
      end
  end.

(** What [IntegratePackages], [handleRoute] and [registerRoutes] have gin
    do to an engine. *)
Definition integrate (e : Engine) (hs : list HandlerFunc) : Engine + error :=
  foldGin (fun h e' => gin.Use e' h) hs e.

Definition routeStep (route : Route) (e : Engine) : Engine + error :=
  match verbOf (Method route) with
  | Some v => gin.handle joinPaths treeRejects v e (Path route) (Handlers route)
  | None => inl e
  end.

Definition register (routes : list Route) (e : Engine) : Engine + error :=
  foldGin routeStep routes e.

(** The engine [Run] builds from gin's default engine, the integrations
    and the routes of [w], or the panic of gin on the way. *)
Definition appEngine (w : World) : Engine + error :=
  match integrate gin.Default (integrations w) with
  | inl e1 => register (GetRoutes (router w)) e1
  | inr v => inr v
  end.


(** [m] hands back the [App] it was started on, however it ends. *)
Definition keepsApp {A} (m : M A) : Prop :=
  forall s, app (final (m s)) = app s.

(** The hosts the two getters resolve to in an environment, and the two
    switches [Run] reads from it. *)
Definition httpHost (env : gmap string string) : string :=
  if String.eqb (getenv env "APP_HTTP_HOST") "" then "localhost"
  else getenv env "APP_HTTP_HOST".

Definition httpsHost (env : gmap string string) : string :=
  if String.eqb (getenv env "APP_HTTPS_HOST") "" then httpHost env
  else getenv env "APP_HTTPS_HOST".

Definition httpsOn (env : gmap string string) : bool :=
  fst (strconv.ParseBool (getenv env "APP_HTTPS_ON")).

Definition redirectToHTTPS (env : gmap string string) : bool :=
  fst (strconv.ParseBool (getenv env "APP_REDIRECT_HTTP_TO_HTTPS")).

Definition openFlag : Z := Z.lor (Z.lor O_CREATE O_APPEND) O_CREATE.

(** The state of [s] once the log file is open, with [evs] added to the
    trace and [rs] to what the goroutines return. *)
Definition serving (s : State) (rs : list (GoCall * option error))
    (evs : list Event) : State :=
  mkState (app s)
    (set_returned (returned (world s) ++ rs)
       (set_trace (trace (world s) ++ evs)
          (set_DefaultWriter [WFile logsFilePath; Stdout] (world s)))).

(** The engine that redirects to HTTPS. *)
Definition redirectEngine : Engine := gin.mkEngine [gin.secureFunc] [].

(** The events of [Run] up to the first plaintext listener: the open, and
    the HTTPS listener handed to a goroutine when HTTPS is on. *)
Definition prelude (env : gmap string string) (tlsEngine : Engine) : list Event :=
  EvOpenFile logsFilePath openFlag 644 ::
  (if httpsOn env
   then [EvGo (RunTLS tlsEngine (httpsHost env ++ ":443")
                 (getenv env "APP_HTTPS_CERT_FILE_PATH")
                 (getenv env "APP_HTTPS_KEY_FILE_PATH"))]
   else []).

(** What the goroutine of [Run] returns, when HTTPS is on. *)
Definition spawned (w : World) (tlsEngine : Engine) : list (GoCall * option error) :=
  if httpsOn (environ w)
  then let c := RunTLS tlsEngine (httpsHost (environ w) ++ ":443")
                  (getenv (environ w) "APP_HTTPS_CERT_FILE_PATH")
                  (getenv (environ w) "APP_HTTPS_KEY_FILE_PATH") in
       [(c, taskResult w c)]
  else [].

(** The plaintext server: blocked in the listener, or back with the log
    file closed. *)
Definition servePlain (s : State) (rs : list (GoCall * option error))
    (evs : list Event) (e : Engine) (addr : string) : Outcome unit :=
  match listenResult (world s) (trace (world s) ++ evs ++ [EvRun e addr]) with
  | None => Blocked (serving s rs (evs ++ [EvRun e addr]))
  | Some _ => Done tt (serving s rs (evs ++ [EvRun e addr; EvClose logsFilePath]))
  end.

(** The events a call started in [s] and ended as [o] has added. *)
Definition added {A} (s : State) (o : Outcome A) : list Event :=
  drop (length (trace (world s))) (trace (world (final o))).

Definition runAddr (ev : Event) : option string :=
  match ev with EvRun _ addr => Some addr | _ => None end.

Definition goCall (ev : Event) : option GoCall :=
  match ev with EvGo c => Some c | _ => None end.

(** The addresses listeners were started on (on the calling goroutine), and
    the calls handed to goroutines. *)
Definition listenAddrs (evs : list Event) : list string := omap runAddr evs.
Definition goCalls (evs : list Event) : list GoCall := omap goCall evs.

(** The events of the plaintext server after the events [pre]. *)
Definition plainEvents (w : World) (pre : list Event) (e : Engine) (addr : string)
  : list Event :=
  (pre ++ EvRun e addr ::
     match listenResult w (trace w ++ pre ++ [EvRun e addr]) with
     | None => []
     | Some _ => [EvClose logsFilePath]
     end)%list.

Definition logOpens (s : State) : Prop :=
  openFileResult (world s) logsFilePath openFlag 644 = None.

(** [Run] gets past the log file and gin: the log file opens and gin takes
    the integrations and the routes, which make the engine [engine]. *)
Definition getsToListen (s : State) (engine : Engine) : Prop :=
  logOpens s /\ appEngine (world s) = inl engine.

(** [Run portNumber], started in [s], starts a plaintext listener on the
    port [port] of the host [getHTTPHost] resolves. *)
Definition usesPort (portNumber : string) (s : State) (port : string) : Prop :=
  exists host,
    getHTTPHost s = Done host s /\
    In (host ++ ":" ++ port) (listenAddrs (added s (Run portNumber s))).

(** The state [s] with [r] for the results of the spawned calls. *)
Definition withTaskResult (r : GoCall -> option error) (s : State) : State :=
  mkState (app s) (set_taskResult r (world s)).

(** The state [s] without what the goroutines return. *)
Definition forgetReturned (s : State) : State :=
  mkState (app s) (set_taskResult (fun _ => None) (set_returned [] (world s))).

Definition onFinal {A} (f : State -> State) (o : Outcome A) : Outcome A :=
  match o with
  | Done a s => Done a (f s)
  | Panic v s => Panic v (f s)
  | Blocked s => Blocked (f s)
  end.

(** The state [s] after [key] has been set to [value]. *)
Definition withEnv (key value : string) (s : State) : State :=
  mkState (app s) (set_environ (insert key value) (world s)).

(** The redirect engine was started during the call that ended as [o]. *)
Definition redirectStarted (s : State) (o : Outcome unit) : Prop :=
  exists addr, In (EvRun redirectEngine addr) (added s o).

(** The call one entry gives rise to, and what it does to the environment. *)
Definition setenvCall (kv : string * string) : Event :=
  EvSetenv (TrimSpace (fst kv)) (TrimSpace (snd kv)).

Definition setenvStep (m : gmap string string) (kv : string * string)
  : gmap string string :=
  if validEnv (TrimSpace (fst kv)) (TrimSpace (snd kv))
  then <[TrimSpace (fst kv) := TrimSpace (snd kv)]> m
  else m.

(** ** Further vocabulary: engines, registries, sub-engines *)

Definition set_middlewares (ms : list HandlerFunc) (w : World) : World :=
  mkWorld (environ w) (modeName w) (DefaultWriter w) (integrations w)
    ms (router w) (trace w) (returned w) (openFileResult w) (listenResult w)
    (taskResult w).

(** The state [s] with [ms] registered in the middlewares engine. *)
Definition withMiddlewares (ms : list HandlerFunc) (s : State) : State :=
  mkState (app s) (set_middlewares ms (world s)).

(** The sub-engines in the order [Bootstrap] initialises them. *)
Definition subEngines : list SubEngine :=
  [pkgintegrator; middlewaresengine; routing; database; cache].

(** The mode [SetAppMode] settles on for the string [mode]. *)
Definition settledMode (mode : string) : string :=
  if existsb (String.eqb mode) ["release"; "test"; "debug"] then mode else "test".

(** Some entry of [kvs] trims to [key] and is accepted by [os.Setenv]. *)
Definition acceptedFor (key : string) (kvs : list (string * string)) : bool :=
  existsb (fun kv => String.eqb (TrimSpace (fst kv)) key
                     && validEnv key (TrimSpace (snd kv))) kvs.

Definition runCall (ev : Event) : option (Engine * string) :=
  match ev with EvRun e addr => Some (e, addr) | _ => None end.

(** The listeners started on the calling goroutine: engine and address. *)
Definition runCalls (evs : list Event) : list (Engine * string) := omap runCall evs.

(** The address of [Run]'s plaintext listeners. *)
Definition plainAddr (portNumber : string) (env : gmap string string) : string :=
  httpHost env ++ ":" ++ (if String.eqb portNumber "" then "80" else portNumber).

(** Initialising the sub-engines [subs] one after the other. *)
Fixpoint initSeq (subs : list SubEngine) : M unit :=
  match subs with
  | [] => ret tt
  | sub :: rest => subEngine_New sub ;; initSeq rest
  end.

(** ** Sample states *)

(** A state around the application features [features], with the handler
    [h] as the one integration and the given environment, routes and
    answers of the operating system. *)
Definition mkSt (features : FeaturesRef) (h : UserHandler)
    (env : gmap string string) (routes : list Route)
    (opens : option error) (listens : list Event -> option error) : State :=
  mkState (mkApp features)
    (mkWorld env "debug" [Stdout] [gin.Custom h] [] (mkRouter routes) [] []
       (fun _ _ _ => opens) listens (fun _ => None)).

Definition ping (h : UserHandler) : Route := mkRoute "get" "/ping" [gin.Custom h].
Definition PING (h : UserHandler) : Route := mkRoute "GET" "/ping" [gin.Custom h].

(** No variables set; the log file opens; listeners serve for ever. *)
Definition plain (features : FeaturesRef) (h : UserHandler) : State :=
  mkSt features h ∅ [ping h] None (fun _ => None).

(** HTTPS and the redirect on, hosts set; every listener comes back. *)
Definition secured (features : FeaturesRef) (h : UserHandler) : State :=
  mkSt features h
    (<["APP_HTTPS_ON" := "true"]>
     (<["APP_REDIRECT_HTTP_TO_HTTPS" := "1"]>
     (<["APP_HTTPS_HOST" := "secure.example"]>
     (<["APP_HTTP_HOST" := "www.example"]> ∅))))
    [ping h; PING h] None (fun _ => Some "listen: address in use").

(** The log file does not open. *)
Definition unwritable (features : FeaturesRef) (h : UserHandler) : State :=
  mkSt features h ∅ [ping h] (Some "open logs/app.log: permission denied")
    (fun _ => None).

(** The same route twice in the router. *)
Definition doubled (features : FeaturesRef) (h : UserHandler) : State :=
  mkSt features h ∅ [ping h; ping h] None (fun _ => None).

(** HTTPS and the redirect on, and the log file does not open. *)
Definition securedUnwritable (features : FeaturesRef) (h : UserHandler) : State :=
  mkSt features h
    (<["APP_HTTPS_ON" := "true"]> (<["APP_REDIRECT_HTTP_TO_HTTPS" := "1"]> ∅))
    [ping h] (Some "open logs/app.log: permission denied") (fun _ => None).

(** HTTPS and the redirect on, and the same route twice in the router. *)
Definition securedDoubled (features : FeaturesRef) (h : UserHandler) : State :=
  mkSt features h
    (<["APP_HTTPS_ON" := "true"]> (<["APP_REDIRECT_HTTP_TO_HTTPS" := "1"]> ∅))
    [ping h; ping h] None (fun _ => None).

(** Only one of the two hosts set. *)
Definition httpOnly (features : FeaturesRef) (h : UserHandler) : State :=
  mkSt features h (<["APP_HTTP_HOST" := "www.example"]> ∅) [ping h] None
    (fun _ => None).

Definition httpsOnly (features : FeaturesRef) (h : UserHandler) : State :=
  mkSt features h (<["APP_HTTPS_HOST" := "secure.example"]> ∅) [ping h] None
    (fun _ => None).

(** * Properties *)

(** ** Route dispatch *)

Lemma recognized_verb (m : string) :
  In m recognized -> exists v, m = strings.ToLower (gin.methodName v).
Proof.
  unfold recognized. simpl.
  intros [H|[H|[H|[H|[H|[H|[H|[]]]]]]]]; subst m.
  - exists gin.GET. reflexivity.
  - exists gin.POST. reflexivity.
  - exists gin.DELETE. reflexivity.
  - exists gin.PATCH. reflexivity.
  - exists gin.PUT. reflexivity.
  - exists gin.OPTIONS. reflexivity.
  - exists gin.HEAD. reflexivity.
Qed.

Lemma handleRoute_verb (route : Route) (e : Engine) (v : gin.Verb) (s : State) :
  Method route = strings.ToLower (gin.methodName v) ->
  handleRoute route e s = engine_handle v e (Path route) (Handlers route) s.
Proof.
  intros Hm. unfold handleRoute. rewrite Hm. destruct v; reflexivity.
Qed.

(** gin's registration by cases: the route added, or a panic. *)
Lemma handle_accepted (v : gin.Verb) (e : Engine) (relativePath : string)
    (handlers : list HandlerFunc) :
  ginAccepts v e relativePath handlers = true ->
  gin.handle joinPaths treeRejects v e relativePath handlers =
  inl (gin.mkEngine (gin.Handlers e)
         (gin.trees e ++
          [(v, joinPaths "/" relativePath, gin.Handlers e ++ handlers)])%list).
Proof.
  clear TrimSpace initSubEngine.
  unfold ginAccepts, gin.handle. intros H.
  repeat (apply andb_true_iff in H; destruct H as [H ?]).
  rewrite Nat.ltb_antisym in H. apply negb_true_iff in H. rewrite H.
  repeat match goal with
  | Hb : negb _ = true |- _ => apply negb_true_iff in Hb
  end.
  repeat match goal with
  | Hb : ?b = _ |- context [?b] => rewrite Hb
  end.
  simpl. destruct (treeRejects _ _ _); [discriminate|reflexivity].
Qed.

Lemma handle_refused (v : gin.Verb) (e : Engine) (relativePath : string)
    (handlers : list HandlerFunc) :
  ginAccepts v e relativePath handlers = false ->
  exists err, gin.handle joinPaths treeRejects v e relativePath handlers = inr err.
Proof.
  clear TrimSpace initSubEngine.
  unfold ginAccepts, gin.handle. rewrite Nat.ltb_antisym. intros H.
  destruct (gin.abortIndex <=? _)%nat; [eexists; reflexivity|].
  destruct (gin.beginsWithSlash _); [|eexists; reflexivity].
  destruct (length _ =? 0)%nat; [eexists; reflexivity|].
  destruct (gin.registered _ _ _); [eexists; reflexivity|].
  destruct (treeRejects _ _ _); [eexists; reflexivity|].
  discriminate H.
Qed.

(** C1, as amended: for a route whose method is one of the seven
    lower-case strings, [handleRoute] is one call of the engine's
    registration method for the verb whose name lower-cased is the method
    string, with the route's path and handlers. When gin accepts the call,
    [handleRoute] returns, without touching the state, the engine with
    exactly one more route at the end of its routes: under that verb, at
    the route's path joined to the root, with the engine's middleware
    followed by the route's handlers; the middleware of the engine is as
    before. When gin does not, [handleRoute] panics. *)
Theorem handleRoute_registers_once (route : Route) (e : Engine) (s : State) :
  In (Method route) ["get"; "post"; "delete"; "patch"; "put"; "options"; "head"] ->
  exists v,
    Method route = strings.ToLower (gin.methodName v) /\
    handleRoute route e s = engine_handle v e (Path route) (Handlers route) s /\
    (ginAccepts v e (Path route) (Handlers route) = true ->
     exists e',
       handleRoute route e s = Done e' s /\
       gin.trees e' = (gin.trees e ++ [routeEntry v e route])%list /\
       length (gin.trees e') = S (length (gin.trees e)) /\
       gin.Handlers e' = gin.Handlers e) /\
    (ginAccepts v e (Path route) (Handlers route) = false ->
     exists err, handleRoute route e s = Panic err s).
Proof.
  clear TrimSpace initSubEngine.
  intros Hin. destruct (recognized_verb _ Hin) as [v Hv].
  exists v. split; [exact Hv|]. split; [apply handleRoute_verb; exact Hv|].
  rewrite (handleRoute_verb route e v s Hv). unfold engine_handle. split.
  - intros Hacc. rewrite (handle_accepted _ _ _ _ Hacc).
    eexists. split; [reflexivity|]. simpl. rewrite length_app. simpl.
    repeat split. lia.
  - intros Hrej. destruct (handle_refused _ _ _ _ Hrej) as [err ->].
    exists err. reflexivity.
Qed.

Lemma handleRoute_default (route : Route) (e : Engine) (s : State) :
  ~ In (Method route) recognized -> handleRoute route e s = Done e s.
Proof.
  intros Hn. unfold handleRoute.
  repeat match goal with
  | |- context [String.eqb (Method route) ?m] =>
      destruct (String.eqb_spec (Method route) m) as [Heq|_];
      [exfalso; apply Hn; rewrite Heq; simpl; tauto|]
  end.
  reflexivity.
Qed.

(** C2: a route whose method is none of the seven strings is dropped:
    [handleRoute] returns the engine it was given, does not panic, and
    leaves the state as it was. *)
Theorem handleRoute_drops_unrecognized (route : Route) (e : Engine) (s : State) :
  ~ In (Method route) ["get"; "post"; "delete"; "patch"; "put"; "options"; "head"] ->
  handleRoute route e s = Done e s.
Proof. apply handleRoute_default. Qed.

(** The recognized strings are in lower case, so any other spelling of
    them, with a capital somewhere, is dropped too. *)
Lemma handleRoute_drops_other_case (route : Route) (e : Engine) (s : State) :
  strings.ToLower (Method route) <> Method route ->
  handleRoute route e s = Done e s.
Proof.
  intros Hcase. apply handleRoute_default. intros Hin. apply Hcase.
  unfold recognized in Hin. simpl in Hin.
  repeat (destruct Hin as [<-|Hin]; [reflexivity|]). destruct Hin.
Qed.

(** ** Host resolution *)

Lemma os_Getenv_eq (key : string) (s : State) :
  os_Getenv key s = Done (getenv (environ (world s)) key) s.
Proof. reflexivity. Qed.

Lemma getHTTPHost_eq (s : State) :
  getHTTPHost s =
  Done (if String.eqb (getenv (environ (world s)) "APP_HTTP_HOST") ""
        then "localhost"
        else getenv (environ (world s)) "APP_HTTP_HOST") s.
Proof. reflexivity. Qed.

Lemma getHTTPSHost_eq (s : State) :
  getHTTPSHost s =
  Done (if String.eqb (getenv (environ (world s)) "APP_HTTPS_HOST") ""
        then if String.eqb (getenv (environ (world s)) "APP_HTTP_HOST") ""
             then "localhost"
             else getenv (environ (world s)) "APP_HTTP_HOST"
        else getenv (environ (world s)) "APP_HTTPS_HOST") s.
Proof.
  unfold getHTTPSHost, bind. rewrite os_Getenv_eq.
  destruct (String.eqb_spec (getenv (environ (world s)) "APP_HTTPS_HOST") "") as [E|E].
  - rewrite os_Getenv_eq. reflexivity.
  - unfold ret. apply String.eqb_neq in E. rewrite E. reflexivity.
Qed.

(** C3: with [https] and [http] the values of APP_HTTPS_HOST and
    APP_HTTP_HOST (empty when unset), [getHTTPSHost] returns [https] when it
    is not empty, else [http] when that is not empty, else "localhost";
    [getHTTPHost] returns [http] when it is not empty, else "localhost".
    Neither changes the state. *)
Theorem host_fallback (s : State) :
  let https := getenv (environ (world s)) "APP_HTTPS_HOST" in
  let http := getenv (environ (world s)) "APP_HTTP_HOST" in
  (https <> "" -> getHTTPSHost s = Done https s) /\
  (https = "" -> http <> "" -> getHTTPSHost s = Done http s) /\
  (https = "" -> http = "" -> getHTTPSHost s = Done "localhost" s) /\
  (http <> "" -> getHTTPHost s = Done http s) /\
  (http = "" -> getHTTPHost s = Done "localhost" s).
Proof.
  intros https http. rewrite getHTTPSHost_eq, getHTTPHost_eq.
  fold https http.
  repeat split; intros;
    repeat match goal with
    | H : _ <> "" |- _ => apply String.eqb_neq in H; rewrite H
    | H : _ = "" |- _ => rewrite H
    end; reflexivity.
Qed.

(** ** The application mode *)

(** C9: [SetAppMode] always returns: it never panics in [gin.SetMode]. gin's
    mode is afterwards the given string when that is "release", "test" or
    "debug", and "test" for any other string; it is never the empty
    string. Nothing else of the world changes but the record of the call. *)
Theorem SetAppMode_sets_or_falls_back (mode : string) (s : State) :
  exists s',
    SetAppMode mode s = Done tt s' /\
    (In mode ["release"; "test"; "debug"] -> modeName (world s') = mode) /\
    (~ In mode ["release"; "test"; "debug"] -> modeName (world s') = "test") /\
    In (modeName (world s')) [gin.ReleaseMode; gin.TestMode; gin.DebugMode] /\
    environ (world s') = environ (world s) /\
    app s' = app s.
Proof.
  clear TrimSpace initSubEngine.
  unfold SetAppMode, gin.ReleaseMode, gin.TestMode, gin.DebugMode.
  destruct (String.eqb_spec mode "release") as [->|Hr].
  { eexists. split; [cbv; reflexivity|]. simpl. tauto. }
  destruct (String.eqb_spec mode "test") as [->|Ht].
  { eexists. split; [cbv; reflexivity|]. simpl. tauto. }
  destruct (String.eqb_spec mode "debug") as [->|Hd].
  { eexists. split; [cbv; reflexivity|]. simpl. tauto. }
  eexists. split; [cbv; reflexivity|]. simpl.
  repeat split; try tauto. intros [H|[H|[H|[]]]]; congruence.
Qed.

(** ** The frame of the methods on the [App] *)

Lemma keepsApp_ret {A} (a : A) : keepsApp (ret a).
Proof. intros s. reflexivity. Qed.

Lemma keepsApp_panic {A} (v : error) : keepsApp (@panic A v).
Proof. intros s. reflexivity. Qed.

Lemma keepsApp_block {A} : keepsApp (@block A).
Proof. intros s. reflexivity. Qed.

Lemma keepsApp_getWorld : keepsApp getWorld.
Proof. intros s. reflexivity. Qed.

Lemma keepsApp_modifyWorld (f : World -> World) : keepsApp (modifyWorld f).
Proof. intros s. reflexivity. Qed.

Lemma keepsApp_bind {A B} (m : M A) (k : A -> M B) :
  keepsApp m -> (forall a, keepsApp (k a)) -> keepsApp (bind m k).
Proof.
  intros Hm Hk s. unfold bind. specialize (Hm s).
  destruct (m s) as [a s1|v s1|s1]; simpl in *; try exact Hm.
  rewrite (Hk a s1). exact Hm.
Qed.

Lemma keepsApp_defer {A} (d : M unit) (body : M A) :
  keepsApp d -> keepsApp body -> keepsApp (defer d body).
Proof.
  intros Hd Hb s. unfold defer. specialize (Hb s).
  destruct (body s) as [a s1|v s1|s1]; simpl in *; try exact Hb;
    specialize (Hd s1); destruct (d s1); simpl in *; congruence.
Qed.

Lemma keepsApp_range {A S} (l : list A) (body : A -> S -> M S) :
  (forall x acc, keepsApp (body x acc)) -> forall acc, keepsApp (range l body acc).
Proof.
  intros Hb. induction l as [|x l IH]; intros acc; simpl.
  - apply keepsApp_ret.
  - apply keepsApp_bind; [apply Hb | intros acc'; apply IH].
Qed.

Create HintDb frame.
#[local] Hint Resolve keepsApp_ret keepsApp_panic keepsApp_block keepsApp_getWorld
  keepsApp_modifyWorld keepsApp_bind keepsApp_defer keepsApp_range : frame.

Ltac frame_step :=
  match goal with
  | |- forall _, _ => intro
  | |- keepsApp (bind _ _) => apply keepsApp_bind
  | |- keepsApp (defer _ _) => apply keepsApp_defer
  | |- keepsApp (range _ _ _) => apply keepsApp_range
  | |- keepsApp (emit _) => apply keepsApp_modifyWorld
  | |- keepsApp (if ?b then _ else _) => destruct b
  | |- keepsApp (match ?x with inl _ => _ | inr _ => _ end) => destruct x
  | |- keepsApp (match ?x with Some _ => _ | None => _ end) => destruct x
  | |- keepsApp (match ?x with Initialised _ => _ | Panicked _ => _ | Stuck => _ end) =>
      destruct x
  | |- keepsApp (liftGin ?r) => destruct r; simpl
  | |- keepsApp (engine_Use _ _) => unfold engine_Use
  | |- keepsApp (engine_handle _ _ _ _) => unfold engine_handle
  | |- keepsApp _ => solve [auto with frame]
  | |- keepsApp _ => progress cbv zeta
  end.

Ltac frame := repeat frame_step.

Lemma keepsApp_os_Getenv (key : string) : keepsApp (os_Getenv key).
Proof. unfold os_Getenv. frame. Qed.

Lemma keepsApp_os_Setenv (key value : string) : keepsApp (os_Setenv key value).
Proof. unfold os_Setenv. frame. Qed.

Lemma keepsApp_gin_SetMode (value : string) : keepsApp (gin_SetMode value).
Proof. unfold gin_SetMode. frame. Qed.

Lemma keepsApp_engine_Run (e : Engine) (addr : string) : keepsApp (engine_Run e addr).
Proof. unfold engine_Run. frame. Qed.

Lemma keepsApp_subEngine_New (sub : SubEngine) : keepsApp (subEngine_New sub).
Proof. unfold subEngine_New. frame. Qed.

Lemma keepsApp_handleRoute (route : Route) (e : Engine) : keepsApp (handleRoute route e).
Proof. unfold handleRoute. frame. Qed.

Lemma keepsApp_getHTTPHost : keepsApp getHTTPHost.
Proof. unfold getHTTPHost. pose proof keepsApp_os_Getenv. frame. Qed.

Lemma keepsApp_getHTTPSHost : keepsApp getHTTPSHost.
Proof. unfold getHTTPSHost. pose proof keepsApp_os_Getenv. frame. Qed.

Lemma keepsApp_registerRoutes (r : Router) (e : Engine) : keepsApp (registerRoutes r e).
Proof. unfold registerRoutes. apply keepsApp_range. apply keepsApp_handleRoute. Qed.

Lemma keepsApp_IntegratePackages (e : Engine) (hs : list HandlerFunc) :
  keepsApp (IntegratePackages e hs).
Proof. unfold IntegratePackages. frame. Qed.

Lemma keepsApp_useMiddlewares (e : Engine) : keepsApp (useMiddlewares e).
Proof. unfold useMiddlewares, middlewaresengine_GetMiddlewares. frame. Qed.

Lemma keepsApp_SetEnv_loop (kvs : list (string * string)) : keepsApp (SetEnv_loop kvs).
Proof. unfold SetEnv_loop. pose proof keepsApp_os_Setenv. frame. Qed.

Lemma keepsApp_Bootstrap : keepsApp Bootstrap.
Proof. unfold Bootstrap. pose proof keepsApp_subEngine_New. frame. Qed.

Lemma keepsApp_SetAppMode (mode : string) : keepsApp (SetAppMode mode).
Proof. unfold SetAppMode. pose proof keepsApp_gin_SetMode. frame. Qed.

Lemma keepsApp_Run (portNumber : string) : keepsApp (Run portNumber).
Proof.
  unfold Run, os_OpenFile, file_Close, go, pkgintegrator_GetIntegrations,
    routing_ResolveRouter.
  pose proof keepsApp_os_Getenv. pose proof keepsApp_engine_Run.
  pose proof keepsApp_registerRoutes. pose proof keepsApp_IntegratePackages.
  pose proof keepsApp_getHTTPHost. pose proof keepsApp_getHTTPSHost.
  frame.
Qed.

(** C6: [FeaturesControl] sets [Features] to its argument (and touches
    nothing else); every other method hands back the [App] with the
    [Features] it had, whether it returns, panics or stays in a listener. *)
Theorem Features_changed_only_by_FeaturesControl :
  (forall features s,
     exists s', FeaturesControl features s = Done tt s' /\
                Features (app s') = features /\ world s' = world s) /\
  (forall env s o, SetEnv env s o -> Features (app (final o)) = Features (app s)) /\
  (forall s, Features (app (final (Bootstrap s))) = Features (app s)) /\
  (forall portNumber s,
     Features (app (final (Run portNumber s))) = Features (app s)) /\
  (forall mode s, Features (app (final (SetAppMode mode s))) = Features (app s)) /\
  (forall engine handlerFuncs s,
     Features (app (final (IntegratePackages engine handlerFuncs s)))
     = Features (app s)) /\
  (forall engine s,
     Features (app (final (useMiddlewares engine s))) = Features (app s)) /\
  (forall router engine s,
     Features (app (final (registerRoutes router engine s))) = Features (app s)) /\
  (forall route ginEngine s,
     Features (app (final (handleRoute route ginEngine s))) = Features (app s)) /\
  (forall s, Features (app (final (getHTTPSHost s))) = Features (app s)) /\
  (forall s, Features (app (final (getHTTPHost s))) = Features (app s)).
Proof.
  split.
  { intros features s. eexists. split; [reflexivity|]. split; reflexivity. }
  split.
  { intros env s o (kvs & _ & ->). f_equal. apply keepsApp_SetEnv_loop. }
  repeat apply conj; intros.
  - now rewrite keepsApp_Bootstrap.
  - now rewrite keepsApp_Run.
  - now rewrite keepsApp_SetAppMode.
  - now rewrite keepsApp_IntegratePackages.
  - now rewrite keepsApp_useMiddlewares.
  - now rewrite keepsApp_registerRoutes.
  - now rewrite keepsApp_handleRoute.
  - now rewrite keepsApp_getHTTPSHost.
  - now rewrite keepsApp_getHTTPHost.
Qed.

(** ** What [Run] does, step by step *)

(** The loops over calls into gin neither read nor write the state: they
    return what gin builds, or panic with gin's panic. *)
Lemma range_liftGin {A S} (f : A -> S -> S + error) (l : list A) (acc : S)
    (s : State) :
  range l (fun x a => liftGin (f x a)) acc s = liftGin (foldGin f l acc) s.
Proof.
  revert acc. induction l as [|x l IH]; intros acc; simpl; [reflexivity|].
  unfold bind. destruct (f x acc) as [acc'|v]; simpl; [apply IH|reflexivity].
Qed.

Lemma IntegratePackages_lift (e : Engine) (hs : list HandlerFunc) (s : State) :
  IntegratePackages e hs s = liftGin (integrate e hs) s.
Proof.
  unfold IntegratePackages, integrate, engine_Use.
  exact (range_liftGin (fun h e' => gin.Use e' h) hs e s).
Qed.

Lemma handleRoute_lift (route : Route) (e : Engine) (s : State) :
  handleRoute route e s = liftGin (routeStep route e) s.
Proof.
  clear TrimSpace initSubEngine.
  unfold handleRoute, routeStep, verbOf, verbs, engine_handle.
  cbn [find].
  change (strings.ToLower (gin.methodName gin.GET)) with "get".
  change (strings.ToLower (gin.methodName gin.POST)) with "post".
  change (strings.ToLower (gin.methodName gin.DELETE)) with "delete".
  change (strings.ToLower (gin.methodName gin.PATCH)) with "patch".
  change (strings.ToLower (gin.methodName gin.PUT)) with "put".
  change (strings.ToLower (gin.methodName gin.OPTIONS)) with "options".
  change (strings.ToLower (gin.methodName gin.HEAD)) with "head".
  repeat match goal with
  | |- context [String.eqb (Method route) ?m] =>
      destruct (String.eqb (Method route) m); [reflexivity|]
  end.
  reflexivity.
Qed.

Lemma registerRoutes_lift (r : Router) (e : Engine) (s : State) :
  registerRoutes r e s = liftGin (register (GetRoutes r) e) s.
Proof.
  clear TrimSpace initSubEngine.
  unfold registerRoutes, register.
  generalize (GetRoutes r) as routes. intros routes. revert e.
  induction routes as [|route routes IH]; intros e; simpl; [reflexivity|].
  unfold bind. rewrite handleRoute_lift.
  destruct (routeStep route e) as [e1|v]; simpl; [apply IH|reflexivity].
Qed.

(** Integration adds to the middleware and leaves the routes; registration
    leaves the middleware. *)
Lemma integrate_inl (hs : list HandlerFunc) (e e' : Engine) :
  integrate e hs = inl e' ->
  gin.Handlers e' = (gin.Handlers e ++ hs)%list /\ gin.trees e' = gin.trees e.
Proof.
  unfold integrate. revert e.
  induction hs as [|h hs IH]; intros e; simpl.
  - intros [= <-]. rewrite app_nil_r. auto.
  - unfold gin.Use at 1.
    destruct (gin.abortIndex <=? _)%nat; [discriminate|].
    intros H. apply IH in H. simpl in H. rewrite <- app_assoc in H. exact H.
Qed.

Lemma routeStep_Handlers (route : Route) (e e' : Engine) :
  routeStep route e = inl e' -> gin.Handlers e' = gin.Handlers e.
Proof.
  unfold routeStep. destruct (verbOf (Method route)) as [v|]; [|congruence].
  destruct (ginAccepts v e (Path route) (Handlers route)) eqn:Hacc.
  - rewrite (handle_accepted _ _ _ _ Hacc). intros [= <-]. reflexivity.
  - destruct (handle_refused _ _ _ _ Hacc) as [err ->]. discriminate.
Qed.

Lemma register_Handlers (routes : list Route) (e e' : Engine) :
  register routes e = inl e' -> gin.Handlers e' = gin.Handlers e.
Proof.
  unfold register. revert e.
  induction routes as [|route routes IH]; intros e; simpl; [congruence|].
  destruct (routeStep route e) as [e1|] eqn:E; [|discriminate].
  intros H. rewrite (IH _ H). exact (routeStep_Handlers _ _ _ E).
Qed.

Lemma appEngine_Handlers (w : World) (engine : Engine) :
  appEngine w = inl engine ->
  gin.Handlers engine = ([gin.Logger; gin.Recovery] ++ integrations w)%list.
Proof.
  unfold appEngine.
  destruct (integrate gin.Default (integrations w)) as [e1|] eqn:E1; [|discriminate].
  intros H. rewrite (register_Handlers _ _ _ H).
  exact (proj1 (integrate_inl _ _ _ E1)).
Qed.

(** The served engine still has gin's logger in front: it is not the
    redirect engine. *)
Lemma appEngine_not_redirect (w : World) (engine : Engine) :
  appEngine w = inl engine -> engine <> redirectEngine.
Proof.
  intros H ->. apply appEngine_Handlers in H. discriminate H.
Qed.

Arguments getenv : simpl never.
Arguments strconv.ParseBool : simpl never.

(** [Run] in closed form: the panic when the log file does not open; the
    panic of gin, after the deferred close, when gin does not take the
    integrations or the routes; otherwise the prelude, the redirect listener
    when both switches are on, and the plaintext server once that listener
    is back (or at once). *)
Lemma Run_outcome (portNumber : string) (s : State) :
  let w := world s in
  let env := environ w in
  let addr := plainAddr portNumber env in
  Run portNumber s =
  match openFileResult w logsFilePath openFlag 644 with
  | Some err =>
      Panic err
        (mkState (app s)
           (set_trace (trace w ++ [EvOpenFile logsFilePath openFlag 644]) w))
  | None =>
      match appEngine w with
      | inr v =>
          Panic v (serving s []
                     [EvOpenFile logsFilePath openFlag 644; EvClose logsFilePath])
      | inl engine =>
          if httpsOn env && redirectToHTTPS env then
            match listenResult w
                    (trace w ++ prelude env engine ++ [EvRun redirectEngine addr])
            with
            | None =>
                Blocked (serving s (spawned w engine)
                           (prelude env engine ++ [EvRun redirectEngine addr]))
            | Some _ =>
                servePlain s (spawned w engine)
                  (prelude env engine ++ [EvRun redirectEngine addr]) engine addr
            end
          else servePlain s (spawned w engine) (prelude env engine) engine addr
      end
  end.
Proof.
  clear TrimSpace initSubEngine.
  intros w env addr.
  unfold Run. unfold bind at 1.
  unfold os_OpenFile, bind, emit, modifyWorld, getWorld, ret. simpl.
  fold w. fold openFlag.
  destruct (openFileResult w logsFilePath openFlag 644) as [err|]; [reflexivity|].
  unfold defer, bind, os_Getenv, pkgintegrator_GetIntegrations,
    routing_ResolveRouter, getWorld, ret, modifyWorld. simpl.
  fold env. fold (httpsOn env) (redirectToHTTPS env).
  unfold servePlain, prelude, spawned, serving, appEngine. fold w env.
  destruct (httpsOn env); simpl.
  all: rewrite ?IntegratePackages_lift.
  all: destruct (integrate gin.Default (integrations w)) as [e1|v1] eqn:E1;
    [|simpl; rewrite app_nil_r, <- ?app_assoc; reflexivity].
  all: simpl; rewrite ?registerRoutes_lift; simpl.
  all: destruct (register (GetRoutes (router w)) e1) as [engine|v2] eqn:E2;
    [|simpl; rewrite app_nil_r, <- ?app_assoc; reflexivity].
  all: simpl.
  1: rewrite getHTTPSHost_eq; unfold go, emit, modifyWorld, bind, getWorld, ret;
      simpl;
      fold redirectEngine; fold env; destruct (redirectToHTTPS env); simpl.
  all: repeat
    (first
       [ rewrite IntegratePackages_lift
       | rewrite registerRoutes_lift
       | rewrite E1
       | rewrite E2
       | progress (unfold engine_Run, bind, emit, modifyWorld, getWorld, ret, block;
                   simpl)
       | progress (fold w)
       | progress (fold env)
       | progress (fold (httpHost env))
       | progress (fold (httpsHost env))
       | progress (fold (plainAddr portNumber env))
       | progress (fold addr)
       | rewrite <- app_assoc; simpl
       | match goal with
         | |- context [match listenResult ?w0 ?t with _ => _ end] =>
             destruct (listenResult w0 t)
         end ]).
  all: rewrite ?app_nil_r; reflexivity.
Qed.

(** ** Observing a run *)

Lemma added_app {A} (s : State) (o : Outcome A) (evs : list Event) :
  trace (world (final o)) = (trace (world s) ++ evs)%list -> added s o = evs.
Proof. unfold added. intros ->. apply drop_app_length. Qed.

Lemma Run_added (portNumber : string) (s : State) :
  let w := world s in
  let env := environ w in
  let addr := plainAddr portNumber env in
  added s (Run portNumber s) =
  match openFileResult w logsFilePath openFlag 644 with
  | Some err => [EvOpenFile logsFilePath openFlag 644]
  | None =>
      match appEngine w with
      | inr v => [EvOpenFile logsFilePath openFlag 644; EvClose logsFilePath]
      | inl engine =>
          if httpsOn env && redirectToHTTPS env then
            match listenResult w
                    (trace w ++ prelude env engine ++ [EvRun redirectEngine addr])
            with
            | None => (prelude env engine ++ [EvRun redirectEngine addr])%list
            | Some _ =>
                plainEvents w (prelude env engine ++ [EvRun redirectEngine addr])
                  engine addr
            end
          else plainEvents w (prelude env engine) engine addr
      end
  end.
Proof.
  clear TrimSpace initSubEngine.
  intros w env addr.
  rewrite (Run_outcome portNumber s).
  fold w env addr. unfold servePlain, plainEvents.
  destruct (openFileResult w logsFilePath openFlag 644); [now apply added_app|].
  destruct (appEngine w) as [engine|v]; [|now apply added_app].
  destruct (httpsOn env && redirectToHTTPS env).
  - destruct (listenResult w _); [|now apply added_app].
    fold w. destruct (listenResult w _); now apply added_app.
  - fold w. destruct (listenResult w _); now apply added_app.
Qed.

(** What [Run] adds once the log file is open and gin has made [engine]. *)
Lemma Run_added_listening (portNumber : string) (s : State) (engine : Engine) :
  getsToListen s engine ->
  let w := world s in
  let env := environ w in
  let addr := plainAddr portNumber env in
  added s (Run portNumber s) =
  if httpsOn env && redirectToHTTPS env then
    match listenResult w
            (trace w ++ prelude env engine ++ [EvRun redirectEngine addr])
    with
    | None => (prelude env engine ++ [EvRun redirectEngine addr])%list
    | Some _ =>
        plainEvents w (prelude env engine ++ [EvRun redirectEngine addr])
          engine addr
    end
  else plainEvents w (prelude env engine) engine addr.
Proof.
  clear TrimSpace initSubEngine.
  intros [Hopen Hgin] w env addr. rewrite Run_added.
  unfold logOpens in Hopen. rewrite Hopen, Hgin. reflexivity.
Qed.

(** Short of that, [Run] adds the open, and the close when it was gin that
    panicked. *)
Lemma Run_added_short (portNumber : string) (s : State) :
  (forall engine, ~ getsToListen s engine) ->
  added s (Run portNumber s) = [EvOpenFile logsFilePath openFlag 644] \/
  added s (Run portNumber s) =
    [EvOpenFile logsFilePath openFlag 644; EvClose logsFilePath].
Proof.
  clear TrimSpace initSubEngine.
  intros Hno. rewrite Run_added. unfold getsToListen, logOpens in Hno.
  destruct (openFileResult (world s) logsFilePath openFlag 644) eqn:Hopen;
    [left; reflexivity|].
  destruct (appEngine (world s)) as [engine|v] eqn:Hgin; [|right; reflexivity].
  exfalso. apply (Hno engine). split; reflexivity.
Qed.

(** ** The log file *)

(** C5: the log file is opened at "logs/app.log". When the open fails with
    [err], [Run] panics with [err] having done nothing but the open; and
    [Run] does something beyond the open exactly when the open has
    succeeded. *)
Theorem Run_panics_when_log_fails (portNumber : string) (s : State) :
  logsFilePath = "logs/app.log" /\
  (forall err,
     openFileResult (world s) "logs/app.log" openFlag 644 = Some err ->
     Run portNumber s =
     Panic err
       (mkState (app s)
          (set_trace (trace (world s) ++ [EvOpenFile "logs/app.log" openFlag 644])
             (world s)))) /\
  (added s (Run portNumber s) <> [EvOpenFile "logs/app.log" openFlag 644] <->
   openFileResult (world s) "logs/app.log" openFlag 644 = None).
Proof.
  clear TrimSpace initSubEngine.
  split; [reflexivity|]. split.
  - intros err Herr. rewrite (Run_outcome portNumber s).
    fold logsFilePath in Herr. rewrite Herr. reflexivity.
  - rewrite (Run_added portNumber s). fold logsFilePath.
    destruct (openFileResult (world s) logsFilePath openFlag 644).
    + split; [intros Hadd; contradiction Hadd; reflexivity | discriminate].
    + split; [reflexivity|]. intros _.
      destruct (appEngine (world s)); [|discriminate].
      unfold plainEvents, prelude.
      destruct (httpsOn (environ (world s))),
               (redirectToHTTPS (environ (world s))); simpl;
        repeat match goal with
        | |- context [match listenResult ?w ?t with _ => _ end] =>
            destruct (listenResult w t); simpl
        end; discriminate.
Qed.

(** ** The port *)

Lemma append_inv_head (a b c : string) : a ++ b = a ++ c -> b = c.
Proof.
  induction a as [|x a IH]; simpl; intros H; [exact H|].
  injection H as H. exact (IH H).
Qed.

(** Once the log file is open and gin has taken the integrations and the
    routes, [Run] starts one or two plaintext listeners, all on the HTTP
    host and the port it has settled on. *)
Lemma Run_listenAddrs (portNumber : string) (s : State) (engine : Engine) :
  getsToListen s engine ->
  let addr := plainAddr portNumber (environ (world s)) in
  listenAddrs (added s (Run portNumber s)) = [addr] \/
  listenAddrs (added s (Run portNumber s)) = [addr; addr].
Proof.
  clear TrimSpace initSubEngine.
  intros Hget addr.
  rewrite (Run_added_listening portNumber s engine Hget). fold addr.
  unfold plainEvents, prelude, listenAddrs.
  destruct (httpsOn (environ (world s))), (redirectToHTTPS (environ (world s)));
    simpl;
    repeat match goal with
    | |- context [match listenResult ?w ?t with _ => _ end] =>
        destruct (listenResult w t); simpl
    end; auto.
Qed.

(** Short of that, [Run] starts no listener. *)
Lemma Run_no_listener (portNumber : string) (s : State) :
  (forall engine, ~ getsToListen s engine) ->
  listenAddrs (added s (Run portNumber s)) = [].
Proof.
  clear TrimSpace initSubEngine.
  intros Hno.
  destruct (Run_added_short portNumber s Hno) as [-> | ->]; reflexivity.
Qed.

Lemma usesPort_iff (portNumber : string) (s : State) (engine : Engine)
    (port : string) :
  getsToListen s engine ->
  usesPort portNumber s port <->
  port = (if String.eqb portNumber "" then "80" else portNumber).
Proof.
  clear TrimSpace initSubEngine.
  intros Hget. unfold usesPort.
  pose proof (Run_listenAddrs portNumber s engine Hget) as Haddrs.
  simpl in Haddrs. unfold plainAddr in Haddrs.
  split.
  - intros (host & Hhost & Hin). rewrite getHTTPHost_eq in Hhost.
    injection Hhost as <-. fold (httpHost (environ (world s))) in Hin.
    assert (httpHost (environ (world s)) ++ ":" ++ port =
            httpHost (environ (world s)) ++ ":" ++
              (if String.eqb portNumber "" then "80" else portNumber)) as Heq.
    { destruct Haddrs as [E|E]; rewrite E in Hin; simpl in Hin;
        intuition congruence. }
    apply append_inv_head in Heq. apply (append_inv_head ":") in Heq. exact Heq.
  - intros ->. exists (httpHost (environ (world s))).
    split; [apply getHTTPHost_eq|].
    destruct Haddrs as [E|E]; rewrite E; simpl; auto.
Qed.

(** C4, as amended: when the log file opens and gin takes the integrations
    and the routes, the port of the plaintext listen address is "80" for
    the empty [portNumber] and [portNumber] itself, unchanged, for a
    non-empty one, and [Run] listens on no other port: the port differs from
    [portNumber] if and only if [portNumber] is empty, and it is then "80".
    When the log file does not open or gin panics, [Run] uses no port. *)
Theorem Run_port (portNumber : string) (s : State) :
  (forall engine,
     getsToListen s engine ->
     (forall port,
        usesPort portNumber s port <->
        port = (if String.eqb portNumber "" then "80" else portNumber)) /\
     (portNumber = "" -> forall port, usesPort portNumber s port <-> port = "80") /\
     (portNumber <> "" ->
      forall port, usesPort portNumber s port <-> port = portNumber) /\
     ((exists port, usesPort portNumber s port /\ port <> portNumber) <->
      portNumber = "")) /\
  ((forall engine, ~ getsToListen s engine) ->
   forall port, ~ usesPort portNumber s port).
Proof.
  clear TrimSpace initSubEngine.
  split.
  - intros engine Hget. split; [|split; [|split]].
    + intros port. exact (usesPort_iff portNumber s engine port Hget).
    + intros -> port. rewrite (usesPort_iff "" s engine port Hget). reflexivity.
    + intros Hne port. rewrite (usesPort_iff portNumber s engine port Hget).
      apply String.eqb_neq in Hne. rewrite Hne. reflexivity.
    + split.
      * intros (port & Huses & Hdiff).
        apply (usesPort_iff portNumber s engine port Hget) in Huses.
        destruct (String.eqb_spec portNumber "") as [E|E]; congruence.
      * intros ->. exists "80". split; [|discriminate].
        apply (usesPort_iff "" s engine "80" Hget). reflexivity.
  - intros Hno port (host & _ & Hin).
    rewrite (Run_no_listener portNumber s Hno) in Hin. destruct Hin.
Qed.

(** ** The HTTPS listener *)

(** Whatever the spawned calls return, [Run] ends the same way with the
    same events, in a state that differs in the record of what they
    returned only. *)
Lemma Run_taskResult (portNumber : string) (s : State)
    (r : GoCall -> option error) :
  onFinal forgetReturned (Run portNumber (withTaskResult r s)) =
  onFinal forgetReturned (Run portNumber s).
Proof.
  clear TrimSpace initSubEngine.
  rewrite (Run_outcome portNumber s).
  rewrite (Run_outcome portNumber (withTaskResult r s)).
  unfold servePlain. simpl.
  change (appEngine (set_taskResult r (world s))) with (appEngine (world s)).
  repeat match goal with
  | |- context [match openFileResult ?w ?n ?f ?p with _ => _ end] =>
      destruct (openFileResult w n f p)
  | |- context [match appEngine ?w with _ => _ end] => destruct (appEngine w)
  | |- context [if ?b then _ else _] => destruct b
  | |- context [match listenResult ?w ?t with _ => _ end] =>
      destruct (listenResult w t)
  end; reflexivity.
Qed.

(** What the goroutines have returned by the end of [Run]. *)
Lemma Run_returned (portNumber : string) (s : State) (engine : Engine) :
  getsToListen s engine ->
  returned (world (final (Run portNumber s))) =
  (returned (world s) ++ spawned (world s) engine)%list.
Proof.
  clear TrimSpace initSubEngine.
  intros [Hopen Hgin]. rewrite (Run_outcome portNumber s).
  unfold logOpens in Hopen. rewrite Hopen, Hgin. unfold servePlain.
  repeat match goal with
  | |- context [if ?b then _ else _] => destruct b
  | |- context [match listenResult ?w ?t with _ => _ end] =>
      destruct (listenResult w t)
  end; reflexivity.
Qed.

(** C7, as amended: when the log file opens, gin takes the integrations and
    the routes, and APP_HTTPS_ON parses as true, [Run] hands exactly one call
    to a goroutine: [RunTLS] of the engine carrying the integrations and the
    routes, on the HTTPS host at port 443, with the certificate and key files
    of the environment; what that call returns, an error included, is
    recorded as returned. When the log file does not open or gin panics,
    nothing is handed to a goroutine. What the spawned calls return is read
    by nothing: whatever results they are given, [Run] ends the same way,
    with the same events, in the same state up to that record. *)
Theorem Run_spawns_TLS_and_drops_result (portNumber : string) (s : State) :
  (forall engine,
     getsToListen s engine ->
     fst (strconv.ParseBool (getenv (environ (world s)) "APP_HTTPS_ON")) = true ->
     exists host,
       let call := RunTLS engine (host ++ ":443")
                     (getenv (environ (world s)) "APP_HTTPS_CERT_FILE_PATH")
                     (getenv (environ (world s)) "APP_HTTPS_KEY_FILE_PATH") in
       getHTTPSHost s = Done host s /\
       goCalls (added s (Run portNumber s)) = [call] /\
       returned (world (final (Run portNumber s))) =
         (returned (world s) ++ [(call, taskResult (world s) call)])%list) /\
  ((forall engine, ~ getsToListen s engine) ->
   goCalls (added s (Run portNumber s)) = []) /\
  (forall r,
     onFinal forgetReturned (Run portNumber (withTaskResult r s)) =
     onFinal forgetReturned (Run portNumber s)) /\
  (forall r,
     added (withTaskResult r s) (Run portNumber (withTaskResult r s)) =
     added s (Run portNumber s)).
Proof.
  clear TrimSpace initSubEngine.
  split; [|split; [|split]].
  - intros engine Hget Hon.
    exists (httpsHost (environ (world s))). cbv zeta.
    fold (httpsOn (environ (world s))) in Hon.
    split; [apply getHTTPSHost_eq|]. split.
    + rewrite (Run_added_listening portNumber s engine Hget).
      unfold plainEvents, prelude, goCalls.
      rewrite Hon. simpl.
      destruct (redirectToHTTPS (environ (world s))); simpl;
        repeat match goal with
        | |- context [match listenResult ?w ?t with _ => _ end] =>
            destruct (listenResult w t); simpl
        end; reflexivity.
    + rewrite (Run_returned portNumber s engine Hget).
      unfold spawned. rewrite Hon. reflexivity.
  - intros Hno.
    destruct (Run_added_short portNumber s Hno) as [-> | ->]; reflexivity.
  - intros r. apply Run_taskResult.
  - intros r. pose proof (Run_taskResult portNumber s r) as H.
    unfold added.
    replace (trace (world (final (Run portNumber (withTaskResult r s)))))
      with (trace (world (final (onFinal forgetReturned
                                   (Run portNumber (withTaskResult r s)))))).
    + rewrite H.
      destruct (Run portNumber s); reflexivity.
    + destruct (Run portNumber (withTaskResult r s)); reflexivity.
Qed.

(** ** The redirect to HTTPS *)

Lemma ParseBool_error (str : string) :
  snd (strconv.ParseBool str) <> None -> fst (strconv.ParseBool str) = false.
Proof.
  unfold strconv.ParseBool.
  repeat match goal with
  | |- context [if ?b then _ else _] => destruct b
  end; simpl; congruence.
Qed.

Lemma getenv_insert_ne (env : gmap string string) (key key' value : string) :
  key <> key' -> getenv (<[key := value]> env) key' = getenv env key'.
Proof. intros Hne. unfold getenv. rewrite lookup_insert_ne; [reflexivity|exact Hne]. Qed.

(** C10, as amended: the redirect engine (the engine whose only middleware
    is the redirect) is started exactly when the log file opens, gin takes
    the integrations and the routes, and APP_HTTPS_ON and
    APP_REDIRECT_HTTP_TO_HTTPS both parse as true; a value of either that
    does not parse counts as false; and with HTTPS off, giving
    APP_REDIRECT_HTTP_TO_HTTPS any value changes nothing of what [Run] does
    but that entry of the environment. *)
Theorem redirect_iff_both_switches (portNumber : string) (s : State) :
  let https := getenv (environ (world s)) "APP_HTTPS_ON" in
  let redirect := getenv (environ (world s)) "APP_REDIRECT_HTTP_TO_HTTPS" in
  (redirectStarted s (Run portNumber s) <->
   (exists engine, getsToListen s engine) /\
   fst (strconv.ParseBool https) = true /\
   fst (strconv.ParseBool redirect) = true) /\
  (snd (strconv.ParseBool https) <> None \/ snd (strconv.ParseBool redirect) <> None ->
   ~ redirectStarted s (Run portNumber s)) /\
  (fst (strconv.ParseBool https) = false ->
   forall value,
     Run portNumber (withEnv "APP_REDIRECT_HTTP_TO_HTTPS" value s) =
     onFinal (withEnv "APP_REDIRECT_HTTP_TO_HTTPS" value) (Run portNumber s)).
Proof.
  clear TrimSpace initSubEngine.
  intros https redirect.
  assert (redirectStarted s (Run portNumber s) <->
          (exists engine, getsToListen s engine) /\
          fst (strconv.ParseBool https) = true /\
          fst (strconv.ParseBool redirect) = true) as Hiff.
  { unfold redirectStarted, getsToListen, logOpens.
    rewrite (Run_added portNumber s).
    destruct (openFileResult (world s) logsFilePath openFlag 644) as [err|].
    { split.
      - intros (addr & [H|[]]). discriminate H.
      - intros [(engine & H & _) _]. discriminate H. }
    destruct (appEngine (world s)) as [engine|v] eqn:Hgin.
    2: { split.
      - intros (addr & [H|[H|[]]]); discriminate H.
      - intros [(engine & _ & H) _]. discriminate H. }
    pose proof (appEngine_not_redirect _ _ Hgin) as Hne.
    unfold httpsOn, redirectToHTTPS, plainEvents, prelude, httpsOn.
    fold https redirect.
    destruct (fst (strconv.ParseBool https)), (fst (strconv.ParseBool redirect));
      simpl;
      repeat match goal with
      | |- context [match listenResult ?w ?t with _ => _ end] =>
          destruct (listenResult w t); simpl
      end;
      (split;
       [ intros (addr & Hin); simpl in Hin;
         repeat match goal with
         | H : _ \/ _ |- _ => destruct H
         | H : False |- _ => destruct H
         | H : EvRun _ _ = EvRun _ _ |- _ => injection H as H ?
         end; try discriminate; try (exfalso; apply Hne; congruence);
         (split; [exists engine; split; reflexivity | split; reflexivity])
       | intros (_ & Ha & Hb); try discriminate; eexists; simpl; eauto ]). }
  split; [exact Hiff|]. split.
  - intros Herr Hstarted. apply Hiff in Hstarted.
    destruct Hstarted as (_ & Ha & Hb).
    destruct Herr as [Herr|Herr]; apply ParseBool_error in Herr; congruence.
  - intros Hoff value.
    rewrite (Run_outcome portNumber s).
    rewrite (Run_outcome portNumber
               (withEnv "APP_REDIRECT_HTTP_TO_HTTPS" value s)).
    simpl.
    change (appEngine (set_environ _ (world s))) with (appEngine (world s)).
    unfold httpsOn, prelude, spawned, httpsOn, plainAddr, httpHost. simpl.
    rewrite !getenv_insert_ne by discriminate.
    fold https. rewrite Hoff. simpl. unfold servePlain. simpl.
    repeat match goal with
    | |- context [match openFileResult ?w ?n ?f ?p with _ => _ end] =>
        destruct (openFileResult w n f p)
    | |- context [match appEngine ?w with _ => _ end] => destruct (appEngine w)
    | |- context [match listenResult ?w ?t with _ => _ end] =>
        destruct (listenResult w t)
    end; reflexivity.
Qed.

(** ** Setting the environment *)

Lemma SetEnv_loop_eq (kvs : list (string * string)) (s : State) :
  SetEnv_loop kvs s =
  Done tt
    (mkState (app s)
       (set_trace (trace (world s) ++ map setenvCall kvs)
          (set_environ (fun m => fold_left setenvStep kvs m) (world s)))).
Proof.
  unfold SetEnv_loop. revert s.
  induction kvs as [|kv kvs IH]; intros [a w]; simpl.
  - unfold ret. destruct w; simpl. unfold set_trace, set_environ; simpl.
    rewrite app_nil_r. reflexivity.
  - unfold bind at 1. unfold os_Setenv, setenvStep, bind, emit, modifyWorld, ret.
    simpl. destruct (validEnv (TrimSpace (fst kv)) (TrimSpace (snd kv))); simpl;
      rewrite IH; simpl; unfold set_trace, set_environ; simpl;
      rewrite <- app_assoc; reflexivity.
Qed.

Lemma setenvStep_other (m : gmap string string) (kv : string * string) (key : string) :
  TrimSpace (fst kv) <> key -> setenvStep m kv !! key = m !! key.
Proof.
  intros Hne. unfold setenvStep.
  destruct (validEnv _ _); [apply lookup_insert_ne; exact Hne | reflexivity].
Qed.

Lemma fold_setenv_other (kvs : list (string * string)) (m : gmap string string)
    (key : string) :
  (forall kv, kv ∈ kvs -> TrimSpace (fst kv) <> key) ->
  fold_left setenvStep kvs m !! key = m !! key.
Proof.
  revert m. induction kvs as [|kv kvs IH]; intros m Hall; simpl; [reflexivity|].
  rewrite IH.
  - apply setenvStep_other. apply Hall. left.
  - intros kv' Hin. apply Hall. right. exact Hin.
Qed.

(** The last accepted entry for a key decides its value. *)
Lemma fold_setenv_set (kvs : list (string * string)) (m : gmap string string)
    (key : string) :
  (exists kv, kv ∈ kvs /\ TrimSpace (fst kv) = key /\
              validEnv key (TrimSpace (snd kv)) = true) ->
  exists kv, kv ∈ kvs /\ TrimSpace (fst kv) = key /\
             fold_left setenvStep kvs m !! key = Some (TrimSpace (snd kv)).
Proof.
  induction kvs as [|x l IH] using rev_ind; intros (kv & Hin & Hk & Hv).
  - inversion Hin.
  - rewrite fold_left_app. simpl.
    destruct (String.eqb_spec (TrimSpace (fst x)) key) as [Hx|Hx].
    + destruct (validEnv key (TrimSpace (snd x))) eqn:Hvx.
      * exists x. split; [apply elem_of_app; right; left|]. split; [exact Hx|].
        unfold setenvStep. rewrite Hx, Hvx. apply lookup_insert_eq.
      * assert (kv ∈ l) as Hl.
        { apply elem_of_app in Hin. destruct Hin as [Hin|Hin]; [exact Hin|].
          apply list_elem_of_singleton in Hin. subst kv. congruence. }
        destruct IH as (kv' & Hin' & Hk' & Hlook); [exists kv; auto|].
        exists kv'. split; [apply elem_of_app; left; exact Hin'|].
        split; [exact Hk'|]. unfold setenvStep. rewrite Hx, Hvx. exact Hlook.
    + assert (kv ∈ l) as Hl.
      { apply elem_of_app in Hin. destruct Hin as [Hin|Hin]; [exact Hin|].
        apply list_elem_of_singleton in Hin. subst kv. congruence. }
      destruct IH as (kv' & Hin' & Hk' & Hlook); [exists kv; auto|].
      exists kv'. split; [apply elem_of_app; left; exact Hin'|].
      split; [exact Hk'|]. rewrite setenvStep_other by exact Hx. exact Hlook.
Qed.

(** C8: [SetEnv] always returns. Its calls to [os.Setenv] are, one for each
    entry of the map and in the order the entries are visited, the calls
    with the trimmed key and the trimmed value. Afterwards a key to which
    some entry trims (and which [os.Setenv] accepts with that entry's
    trimmed value) holds the trimmed value of an entry that trims to it; a
    key to which no entry trims is as before. *)
Theorem SetEnv_trims_key_and_value (env : gmap string string) (s : State) :
  (exists o, SetEnv env s o) /\
  (forall o, SetEnv env s o ->
     exists s',
       o = Done tt s' /\
       (exists kvs,
          kvs ≡ₚ map_to_list env /\
          added s o =
          map (fun kv => EvSetenv (TrimSpace (fst kv)) (TrimSpace (snd kv))) kvs) /\
       (forall key,
          (exists k v, env !! k = Some v /\ TrimSpace k = key /\
                       validEnv key (TrimSpace v) = true) ->
          exists k v, env !! k = Some v /\ TrimSpace k = key /\
                      environ (world s') !! key = Some (TrimSpace v)) /\
       (forall key,
          (forall k v, env !! k = Some v -> TrimSpace k <> key) ->
          environ (world s') !! key = environ (world s) !! key)).
Proof.
  split.
  { exists (SetEnv_loop (map_to_list env) s), (map_to_list env). split; reflexivity. }
  intros o (kvs & Hperm & ->). rewrite SetEnv_loop_eq.
  eexists. split; [reflexivity|]. split; [|split].
  - exists kvs. split; [exact Hperm|]. now apply added_app.
  - intros key (k & v & Hkv & Hk & Hv). simpl.
    destruct (fold_setenv_set kvs (environ (world s)) key) as ([k' v'] & Hin & Hk' & Hl).
    { exists (k, v). split; [|auto]. rewrite Hperm. now apply elem_of_map_to_list. }
    exists k', v'. split; [|auto].
    rewrite Hperm in Hin. now apply elem_of_map_to_list in Hin.
  - intros key Hno. simpl. apply fold_setenv_other.
    intros [k v] Hin. rewrite Hperm in Hin. apply elem_of_map_to_list in Hin.
    simpl. exact (Hno k v Hin).
Qed.

(** ** Engines: what integration and registration build *)

Lemma registered_false (v : gin.Verb) (path : string) (e : Engine) :
  gin.registered v path e = false <-> ~ In (v, path) (map fst (gin.trees e)).
Proof.
  unfold gin.registered. rewrite <- Bool.not_true_iff_false.
  apply not_iff_compat. rewrite existsb_exists. split.
  - intros (r & Hin & Hr). apply andb_true_iff in Hr. destruct Hr as [Hv Hp].
    apply bool_decide_eq_true in Hv. apply String.eqb_eq in Hp.
    apply in_map_iff. exists r. split; [|exact Hin].
    destruct r as [[v' p'] c]. simpl in *. congruence.
  - intros Hin. apply in_map_iff in Hin. destruct Hin as (r & Hr & Hin).
    exists r. split; [exact Hin|]. rewrite Hr. simpl.
    rewrite String.eqb_refl, andb_true_r. apply bool_decide_eq_true. reflexivity.
Qed.

Lemma verbOf_recognized (m : string) :
  In m recognized <-> exists v, verbOf m = Some v.
Proof.
  clear TrimSpace initSubEngine joinPaths treeRejects.
  unfold verbOf. split.
  - intros Hin. destruct (recognized_verb _ Hin) as [v Hv].
    destruct (find _ verbs) as [v'|] eqn:Hf; [eexists; reflexivity|].
    exfalso. pose proof (find_none _ _ Hf v) as Hnone.
    rewrite Hv, String.eqb_refl in Hnone.
    assert (In v verbs) as Hv' by (unfold verbs; destruct v; simpl; tauto).
    specialize (Hnone Hv'). discriminate.
  - intros [v Hf]. apply find_some in Hf. destruct Hf as [_ Heq].
    apply String.eqb_eq in Heq. rewrite Heq.
    unfold recognized. destruct v; simpl; tauto.
Qed.

Lemma routeEntries_cons (mw : list HandlerFunc) (route : Route)
    (routes : list Route) :
  routeEntries mw (route :: routes) =
  match verbOf (Method route) with
  | Some v =>
      (v, joinPaths "/" (Path route), (mw ++ Handlers route)%list)
      :: routeEntries mw routes
  | None => routeEntries mw routes
  end.
Proof.
  unfold routeEntries. simpl. destruct (verbOf (Method route)); reflexivity.
Qed.

Lemma routeEntries_length (mw : list HandlerFunc) (routes : list Route) :
  length (routeEntries mw routes) =
  length (filter (fun route => In (Method route) recognized) routes).
Proof.
  clear TrimSpace initSubEngine treeRejects.
  induction routes as [|route routes IH]; [reflexivity|].
  rewrite routeEntries_cons.
  destruct (decide (In (Method route) recognized)) as [Hin|Hn].
  - rewrite filter_cons_True by exact Hin.
    apply verbOf_recognized in Hin. destruct Hin as [v ->].
    simpl. f_equal. exact IH.
  - rewrite filter_cons_False by exact Hn.
    destruct (verbOf (Method route)) as [v|] eqn:Hv; [|exact IH].
    exfalso. apply Hn. apply verbOf_recognized. exists v. exact Hv.
Qed.

Lemma register_cons (route : Route) (routes : list Route) (e : Engine) :
  register (route :: routes) e =
  match routeStep route e with
  | inl e1 => register routes e1
  | inr v => inr v
  end.
Proof. reflexivity. Qed.

Lemma routeStep_inl (route : Route) (e e1 : Engine) :
  routeStep route e = inl e1 ->
  match verbOf (Method route) with
  | Some v =>
      e1 = gin.mkEngine (gin.Handlers e)
             (gin.trees e ++
              [(v, joinPaths "/" (Path route), gin.Handlers e ++ Handlers route)])%list /\
      ~ In (v, joinPaths "/" (Path route)) (map fst (gin.trees e))
  | None => e1 = e
  end.
Proof.
  clear TrimSpace initSubEngine.
  unfold routeStep. destruct (verbOf (Method route)) as [v|]; [|congruence].
  destruct (ginAccepts v e (Path route) (Handlers route)) eqn:Hacc.
  - rewrite (handle_accepted _ _ _ _ Hacc). intros [= <-]. split; [reflexivity|].
    apply registered_false. unfold ginAccepts in Hacc.
    repeat (apply andb_true_iff in Hacc; destruct Hacc as [Hacc ?]).
    match goal with
    | Hb : negb (gin.registered _ _ _) = true |- _ =>
        apply negb_true_iff in Hb; exact Hb
    end.
  - destruct (handle_refused _ _ _ _ Hacc) as [err ->]. discriminate.
Qed.

(** What registration builds when gin takes every route: the routes of the
    recognized ones at the end, and each verb and path once if it was so
    before. *)
Lemma register_inl (routes : list Route) (e e' : Engine) :
  register routes e = inl e' ->
  gin.Handlers e' = gin.Handlers e /\
  gin.trees e' = (gin.trees e ++ routeEntries (gin.Handlers e) routes)%list /\
  (NoDup (map fst (gin.trees e)) -> NoDup (map fst (gin.trees e'))).
Proof.
  clear TrimSpace initSubEngine.
  revert e.
  induction routes as [|route routes IH]; intros e.
  - simpl. intros [= <-]. rewrite app_nil_r. auto.
  - rewrite register_cons, routeEntries_cons.
    destruct (routeStep route e) as [e1|] eqn:Hstep; [|discriminate].
    apply routeStep_inl in Hstep. intros H. apply IH in H.
    destruct (verbOf (Method route)) as [v|]; [|subst e1; exact H].
    destruct Hstep as [-> Hnew]. simpl in H. destruct H as (Hh & Ht & Hnd).
    split; [exact Hh|]. split; [rewrite Ht, <- app_assoc; reflexivity|].
    intros Hnd0. apply Hnd. rewrite map_app. simpl.
    apply NoDup_app. split; [exact Hnd0|]. split.
    + intros k Hk [<-|[]]%list_elem_of_In. apply Hnew.
      apply list_elem_of_In. exact Hk.
    + apply NoDup_singleton.
Qed.

(** The same recognized route a second time: gin does not take it. *)
Lemma routeStep_twice (route : Route) (e e1 : Engine) :
  In (Method route) recognized ->
  routeStep route e = inl e1 ->
  exists err, routeStep route e1 = inr err.
Proof.
  clear TrimSpace initSubEngine.
  intros Hin H1. apply routeStep_inl in H1.
  destruct (routeStep route e1) as [e2|err] eqn:H2; [|exists err; reflexivity].
  exfalso. apply routeStep_inl in H2.
  apply verbOf_recognized in Hin. destruct Hin as [v Hv]. rewrite Hv in H1, H2.
  destruct H1 as [-> _]. destruct H2 as [_ Hnew]. apply Hnew.
  simpl. rewrite map_app. apply in_or_app. right. left. reflexivity.
Qed.

Lemma handleRoute_twice (route : Route) (e e1 : Engine) (s s1 : State) :
  In (Method route) recognized ->
  handleRoute route e s = Done e1 s1 ->
  exists err, handleRoute route e1 s1 = Panic err s1.
Proof.
  clear TrimSpace initSubEngine.
  intros Hin. rewrite !handleRoute_lift.
  destruct (routeStep route e) as [e1'|] eqn:H1; [|discriminate].
  intros [= <- <-].
  destruct (routeStep_twice route e e1' Hin H1) as [err ->].
  exists err. reflexivity.
Qed.

(** A router with the same recognized route twice in a row: gin panics. *)
Lemma register_twice (route : Route) (routes : list Route) (e : Engine) :
  In (Method route) recognized ->
  exists err, register (route :: route :: routes) e = inr err.
Proof.
  clear TrimSpace initSubEngine.
  intros Hin. rewrite register_cons.
  destruct (routeStep route e) as [e1|err] eqn:H1; [|exists err; reflexivity].
  rewrite register_cons.
  destruct (routeStep_twice route e e1 Hin H1) as [err ->].
  exists err. reflexivity.
Qed.

(** X1: [registerRoutes] either returns or panics with a panic of gin, in
    both cases in the state it was started in. When it returns, the engine
    has its middleware untouched and its routes followed by one route per
    route with a recognized method, in the order of the router: under the
    verb of the method, at the path joined to the root, with the middleware
    of the engine before the handlers of the route; the routes with another
    method string leave no trace. It returns only when no verb and path
    comes twice: on an engine whose routes have each verb and path once,
    [registerRoutes] panics when two recognized routes of the router have
    the same verb and path, or one has those of a route of the engine. *)
Theorem registerRoutes_registers_recognized (r : Router) (e : Engine) (s : State) :
  let entries := routeEntries (gin.Handlers e) (GetRoutes r) in
  ((exists e',
      registerRoutes r e s = Done e' s /\
      gin.Handlers e' = gin.Handlers e /\
      gin.trees e' = (gin.trees e ++ entries)%list /\
      length (gin.trees e') =
      (length (gin.trees e) +
       length (filter (fun route => In (Method route) recognized) (GetRoutes r)))%nat)
   \/ (exists err, registerRoutes r e s = Panic err s)) /\
  (NoDup (map fst (gin.trees e)) ->
   ~ NoDup (map fst (gin.trees e ++ entries)) ->
   exists err, registerRoutes r e s = Panic err s).
Proof.
  clear TrimSpace initSubEngine.
  intros entries. subst entries.
  rewrite registerRoutes_lift.
  destruct (register (GetRoutes r) e) as [e'|err] eqn:Hreg; simpl.
  - destruct (register_inl _ _ _ Hreg) as (Hh & Ht & Hnd).
    split.
    + left. exists e'. split; [reflexivity|]. split; [exact Hh|].
      split; [exact Ht|]. rewrite Ht, length_app, routeEntries_length.
      reflexivity.
    + intros Hnd0 Hdup. exfalso. apply Hdup. rewrite <- Ht. exact (Hnd Hnd0).
  - split; [right; exists err; reflexivity|].
    intros _ _. exists err. reflexivity.
Qed.

(** Integration by cases: under gin's bound the handler functions are
    added; from the bound on gin panics. *)
Lemma integrate_eq (hs : list HandlerFunc) (e : Engine) :
  integrate e hs =
  match hs with
  | [] => inl e
  | _ =>
      if (gin.abortIndex <=? length (gin.Handlers e ++ hs))%nat
      then inr "too many handlers"
      else inl (gin.mkEngine (gin.Handlers e ++ hs) (gin.trees e))
  end.
Proof.
  clear TrimSpace initSubEngine joinPaths treeRejects.
  unfold integrate. revert e.
  induction hs as [|h hs IH]; intros e; [reflexivity|].
  cbn [foldGin]. unfold gin.Use at 1. cbv zeta.
  destruct (Nat.leb_spec gin.abortIndex (length (gin.Handlers e ++ [h]))) as [Hle|Hlt].
  - destruct (Nat.leb_spec gin.abortIndex (length (gin.Handlers e ++ h :: hs)))
      as [_|Hlt]; [reflexivity|].
    rewrite !length_app in *. cbn [length] in *. lia.
  - rewrite IH. cbn [gin.Handlers gin.trees]. rewrite <- app_assoc.
    change ([h] ++ hs)%list with (h :: hs).
    destruct hs as [|h' hs]; [|reflexivity].
    destruct (Nat.leb_spec gin.abortIndex (length (gin.Handlers e ++ [h])))
      as [Hle|_]; [lia|reflexivity].
Qed.

(** The same through a call of the package. *)
Lemma integrate_appends (e : Engine) (hs : list HandlerFunc) (s : State) :
  (hs = [] \/ length (gin.Handlers e ++ hs) < gin.abortIndex ->
   exists e',
     liftGin (integrate e hs) s = Done e' s /\
     gin.Handlers e' = (gin.Handlers e ++ hs)%list /\
     gin.trees e' = gin.trees e) /\
  (hs <> [] -> gin.abortIndex <= length (gin.Handlers e ++ hs) ->
   liftGin (integrate e hs) s = Panic "too many handlers" s).
Proof.
  clear TrimSpace initSubEngine joinPaths treeRejects.
  rewrite integrate_eq. split.
  - intros [-> | Hlt].
    + exists e. rewrite app_nil_r. auto.
    + destruct hs as [|h hs]; [exists e; rewrite app_nil_r; auto|].
      destruct (Nat.leb_spec gin.abortIndex (length (gin.Handlers e ++ h :: hs)))
        as [Hle|_]; [lia|].
      eexists. split; [reflexivity|]. split; reflexivity.
  - intros Hne Hle. destruct hs as [|h hs]; [contradiction|].
    destruct (Nat.leb_spec gin.abortIndex (length (gin.Handlers e ++ h :: hs)))
      as [_|Hlt]; [reflexivity|lia].
Qed.

(** X2: [IntegratePackages] leaves the state as it was. With no handler
    function it returns the engine; with handler functions that keep the
    middleware under gin's bound of 63 it returns the engine with them added
    to its middleware, after what was there and in the order given, the
    routes untouched; when they take the middleware to the bound or beyond,
    it panics with gin's "too many handlers". *)
Theorem IntegratePackages_appends (e : Engine) (hs : list HandlerFunc) (s : State) :
  (hs = [] \/ length (gin.Handlers e ++ hs) < gin.abortIndex ->
   exists e',
     IntegratePackages e hs s = Done e' s /\
     gin.Handlers e' = (gin.Handlers e ++ hs)%list /\
     gin.trees e' = gin.trees e) /\
  (hs <> [] -> gin.abortIndex <= length (gin.Handlers e ++ hs) ->
   IntegratePackages e hs s = Panic "too many handlers" s).
Proof.
  clear TrimSpace initSubEngine.
  rewrite IntegratePackages_lift. apply integrate_appends.
Qed.

(** X3: [useMiddlewares] leaves the state as it was. With middlewares that
    keep the middleware of the engine under gin's bound of 63, or with
    none, it returns the engine with the middlewares of the middlewares
    engine added to its middleware, after what was there and in their
    order, the routes untouched; when they take it to the bound or beyond,
    it panics with gin's "too many handlers". *)
Theorem useMiddlewares_appends (e : Engine) (s : State) :
  let ms := middlewares (world s) in
  (ms = [] \/ length (gin.Handlers e ++ ms) < gin.abortIndex ->
   exists e',
     useMiddlewares e s = Done e' s /\
     gin.Handlers e' = (gin.Handlers e ++ ms)%list /\
     gin.trees e' = gin.trees e) /\
  (ms <> [] -> gin.abortIndex <= length (gin.Handlers e ++ ms) ->
   useMiddlewares e s = Panic "too many handlers" s).
Proof.
  clear TrimSpace initSubEngine.
  intros ms.
  assert (useMiddlewares e s = liftGin (integrate e ms) s) as ->.
  { unfold useMiddlewares, middlewaresengine_GetMiddlewares, bind, getWorld, ret.
    exact (IntegratePackages_lift e (middlewares (world s)) s). }
  apply integrate_appends.
Qed.

(** X4: the order of [Run], integration first and registration after it,
    puts the integrations into every route: when gin takes the integrations
    and the routes, the engine [Run] serves has for middleware gin's logger
    and recovery followed by the integrations, and for routes, in the order
    of the router, the recognized routes of the router, each at its path
    joined to the root with that middleware before the handlers of the
    route, each verb and path once. *)
Theorem Run_routes_carry_integrations (w : World) (engine : Engine) :
  appEngine w = inl engine ->
  let mw := ([gin.Logger; gin.Recovery] ++ integrations w)%list in
  gin.Handlers engine = mw /\
  gin.trees engine = routeEntries mw (GetRoutes (router w)) /\
  NoDup (map fst (gin.trees engine)) /\
  (forall v path chain,
     In (v, path, chain) (gin.trees engine) ->
     exists route,
       In route (GetRoutes (router w)) /\
       Method route = strings.ToLower (gin.methodName v) /\
       path = joinPaths "/" (Path route) /\
       chain = (mw ++ Handlers route)%list).
Proof.
  clear TrimSpace initSubEngine.
  intros Hreg mw. unfold appEngine in Hreg.
  destruct (integrate gin.Default (integrations w)) as [e1|] eqn:E1;
    [|discriminate Hreg].
  destruct (integrate_inl _ _ _ E1) as [Hh1 Ht1]. simpl in Hh1, Ht1.
  destruct (register_inl _ _ _ Hreg) as (Hh & Ht & Hnd).
  rewrite Ht1, Hh1 in *. simpl in Ht, Hnd. fold mw in Ht.
  split; [rewrite Hh; reflexivity|]. split; [exact Ht|].
  split; [apply Hnd; constructor|].
  intros v path chain Hin. rewrite Ht in Hin.
  unfold routeEntries in Hin.
  apply list_elem_of_In, list_elem_of_omap in Hin.
  destruct Hin as (route & Hroute & Hsome).
  exists route. split; [apply list_elem_of_In; exact Hroute|].
  destruct (verbOf (Method route)) as [v'|] eqn:Hv; [|discriminate].
  injection Hsome as <- <- <-.
  unfold verbOf in Hv. apply find_some in Hv. destruct Hv as [_ Hv].
  apply String.eqb_eq in Hv. auto.
Qed.

(** ** More of [Run] *)

(** Case analysis on everything [Run] branches on. *)
Ltac run_cases :=
  repeat match goal with
  | |- context [match openFileResult ?w ?n ?f ?p with _ => _ end] =>
      destruct (openFileResult w n f p) eqn:?
  | |- context [match appEngine ?w with _ => _ end] =>
      destruct (appEngine w) eqn:?
  | |- context [if httpsOn ?env then _ else _] => destruct (httpsOn env) eqn:?
  | |- context [httpsOn ?env && _] => destruct (httpsOn env) eqn:?
  | |- context [if redirectToHTTPS ?env then _ else _] =>
      destruct (redirectToHTTPS env) eqn:?
  | |- context [_ && redirectToHTTPS ?env] => destruct (redirectToHTTPS env) eqn:?
  | |- context [match listenResult ?w ?t with _ => _ end] =>
      destruct (listenResult w t) eqn:?
  | _ => progress simpl
  end.

(** X5: every engine [Run] starts a listener for, on a goroutine or on the
    calling one, is the redirect engine or the engine gin makes of its
    default engine, the integrations and the routes of the router: HTTPS
    and plain HTTP serve the same engine. *)
Theorem Run_serves_appEngine (portNumber : string) (s : State) :
  (forall e addr,
     In (EvRun e addr) (added s (Run portNumber s)) ->
     e = redirectEngine \/ appEngine (world s) = inl e) /\
  (forall e addr certFile keyFile,
     In (EvGo (RunTLS e addr certFile keyFile)) (added s (Run portNumber s)) ->
     appEngine (world s) = inl e).
Proof.
  clear TrimSpace initSubEngine.
  rewrite Run_added. unfold plainEvents, prelude.
  split; intros *; run_cases; intros Hin;
    repeat match goal with
    | H : In _ _ |- _ => simpl in H
    | H : _ \/ _ |- _ => destruct H
    | H : False |- _ => destruct H
    | H : EvRun _ _ = EvRun _ _ |- _ => injection H as <- <-
    | H : EvGo _ = EvGo _ |- _ => injection H as <- <- <- <-
    | H : _ = _ |- _ => discriminate H
    end; auto.
Qed.

(** X6: [Run] does not look at the middlewares engine: whatever middlewares
    are registered there, [Run] ends the same way, with the same events and
    the same engines. *)
Theorem Run_ignores_middlewares (portNumber : string) (s : State)
    (ms : list HandlerFunc) :
  Run portNumber (withMiddlewares ms s)
  = onFinal (withMiddlewares ms) (Run portNumber s).
Proof.
  clear TrimSpace initSubEngine.
  rewrite (Run_outcome portNumber s).
  rewrite (Run_outcome portNumber (withMiddlewares ms s)).
  unfold servePlain. simpl.
  change (appEngine (set_middlewares ms (world s))) with (appEngine (world s)).
  run_cases; reflexivity.
Qed.

(** X7: when the log file opens, gin takes the integrations and the routes
    and both switches are on, the redirect engine is the first listener on
    the plaintext address. While it serves, the application engine gets no
    plaintext listener and [Run] does not come back; when the listeners
    come back, the application engine is started after it on the same
    address and [Run] returns. *)
Theorem redirect_comes_first (portNumber : string) (s : State) (engine : Engine) :
  getsToListen s engine ->
  httpsOn (environ (world s)) = true ->
  redirectToHTTPS (environ (world s)) = true ->
  let addr := plainAddr portNumber (environ (world s)) in
  ((forall t, listenResult (world s) t = None) ->
   (exists s', Run portNumber s = Blocked s') /\
   runCalls (added s (Run portNumber s)) = [(redirectEngine, addr)]) /\
  ((forall t, listenResult (world s) t <> None) ->
   (exists s', Run portNumber s = Done tt s') /\
   runCalls (added s (Run portNumber s)) =
   [(redirectEngine, addr); (engine, addr)]).
Proof.
  clear TrimSpace initSubEngine.
  intros [Hopen Hgin] Hon Hre addr. unfold logOpens in Hopen.
  rewrite Run_added, Run_outcome. fold addr.
  rewrite Hopen, Hgin, Hon, Hre. unfold servePlain, plainEvents, prelude.
  rewrite Hon. simpl.
  split; intros Hl.
  - rewrite !Hl. split; [eexists; reflexivity | reflexivity].
  - repeat match goal with
    | |- context [match listenResult ?w ?t with _ => _ end] =>
        let E := fresh in
        destruct (listenResult w t) eqn:E; [|exfalso; exact (Hl _ E)]
    end.
    split; [eexists; reflexivity | reflexivity].
Qed.

(** X8: when the log file opens and gin takes the integrations and the
    routes, and not both switches are on, [Run] starts exactly one listener
    on the calling goroutine: the application engine on the plaintext
    address. When the log file does not open or gin panics, whatever the
    switches, [Run] starts no listener at all, on no goroutine. *)
Theorem Run_one_plain_listener (portNumber : string) (s : State) :
  (forall engine,
     getsToListen s engine ->
     httpsOn (environ (world s)) && redirectToHTTPS (environ (world s)) = false ->
     runCalls (added s (Run portNumber s)) =
     [(engine, plainAddr portNumber (environ (world s)))]) /\
  ((forall engine, ~ getsToListen s engine) ->
   runCalls (added s (Run portNumber s)) = [] /\
   goCalls (added s (Run portNumber s)) = []).
Proof.
  clear TrimSpace initSubEngine.
  split.
  - intros engine [Hopen Hgin] Hoff. unfold logOpens in Hopen.
    rewrite Run_added. rewrite Hopen, Hgin, Hoff.
    unfold plainEvents, prelude. run_cases; reflexivity.
  - intros Hno.
    destruct (Run_added_short portNumber s Hno) as [-> | ->]; split; reflexivity.
Qed.

(** X9: when [Run] returns it has closed the log file, once and as the
    last thing it did; while [Run] stays in a listener the log file is not
    closed, and neither is it when it did not open. *)
Theorem Run_closes_log_on_return (portNumber : string) (s : State) :
  (forall s', Run portNumber s = Done tt s' ->
     exists evs, added s (Run portNumber s) = (evs ++ [EvClose "logs/app.log"])%list /\
                 ~ In (EvClose "logs/app.log") evs) /\
  (forall s', Run portNumber s = Blocked s' ->
     ~ In (EvClose "logs/app.log") (added s (Run portNumber s))) /\
  (forall err, openFileResult (world s) "logs/app.log" openFlag 644 = Some err ->
     ~ In (EvClose "logs/app.log") (added s (Run portNumber s))).
Proof.
  clear TrimSpace initSubEngine.
  rewrite Run_added, Run_outcome.
  unfold servePlain, plainEvents, prelude, logsFilePath.
  split; [|split].
  - intros s'. run_cases; intros H; try discriminate H.
    all: match goal with
         | |- exists evs, ?l = (evs ++ [?c])%list /\ _ =>
             exists (removelast l); split; [reflexivity|];
             simpl; intuition discriminate
         end.
  - intros s'. run_cases; intros H; try discriminate H;
      simpl; intuition discriminate.
  - intros err Herr. rewrite Herr. simpl. intuition discriminate.
Qed.

(** X10: [Run] leaves the environment, gin's mode and the three registries
    as they were; gin's writer becomes the log file and the standard output
    when the log file has opened, and stays as it was when it has not. *)
Theorem Run_world_frame (portNumber : string) (s : State) :
  let w := world s in
  let w' := world (final (Run portNumber s)) in
  environ w' = environ w /\
  modeName w' = modeName w /\
  integrations w' = integrations w /\
  middlewares w' = middlewares w /\
  router w' = router w /\
  DefaultWriter w' =
  match openFileResult w "logs/app.log" openFlag 644 with
  | None => [WFile "logs/app.log"; Stdout]
  | Some _ => DefaultWriter w
  end.
Proof.
  clear TrimSpace initSubEngine.
  intros w w'. subst w'. rewrite Run_outcome. fold w.
  unfold servePlain, logsFilePath. run_cases; repeat split.
Qed.

Lemma httpHost_nonempty (env : gmap string string) : httpHost env <> "".
Proof.
  unfold httpHost.
  destruct (String.eqb_spec (getenv env "APP_HTTP_HOST") ""); [discriminate|assumption].
Qed.

Lemma httpsHost_nonempty (env : gmap string string) : httpsHost env <> "".
Proof.
  unfold httpsHost.
  destruct (String.eqb_spec (getenv env "APP_HTTPS_HOST") "");
    [apply httpHost_nonempty|assumption].
Qed.

(** X11: neither getter ever returns the empty host, and every plaintext
    listener of [Run] gets an address made of a host and a port that are
    both non-empty. *)
Theorem hosts_and_ports_never_empty (portNumber : string) (s : State) :
  (exists host, getHTTPSHost s = Done host s /\ host <> "") /\
  (exists host, getHTTPHost s = Done host s /\ host <> "") /\
  (forall addr,
     In addr (listenAddrs (added s (Run portNumber s))) ->
     exists host port, addr = host ++ ":" ++ port /\ host <> "" /\ port <> "").
Proof.
  clear TrimSpace initSubEngine.
  split; [|split].
  - exists (httpsHost (environ (world s))).
    split; [apply getHTTPSHost_eq | apply httpsHost_nonempty].
  - exists (httpHost (environ (world s))).
    split; [apply getHTTPHost_eq | apply httpHost_nonempty].
  - intros addr. rewrite Run_added.
    unfold plainEvents, prelude, listenAddrs.
    assert (forall a, a = plainAddr portNumber (environ (world s)) ->
              exists host port, a = host ++ ":" ++ port /\ host <> "" /\ port <> "")
      as Hplain.
    { intros a ->. eexists _, _. split; [reflexivity|].
      split; [apply httpHost_nonempty|].
      destruct (String.eqb_spec portNumber ""); [discriminate|assumption]. }
    run_cases; intros Hin; simpl in Hin;
      repeat match goal with
      | H : _ \/ _ |- _ => destruct H
      | H : False |- _ => destruct H
      end; auto.
Qed.

Lemma ParseBool_true_iff (str : string) :
  fst (strconv.ParseBool str) = true <->
  In str ["1"; "t"; "T"; "TRUE"; "true"; "True"].
Proof.
  clear TrimSpace initSubEngine joinPaths treeRejects.
  unfold strconv.ParseBool.
  destruct (existsb (String.eqb str) ["1"; "t"; "T"; "TRUE"; "true"; "True"])
    eqn:E.
  - split; [intros _|reflexivity].
    apply existsb_exists in E. destruct E as (x & Hin & Hx).
    apply String.eqb_eq in Hx. subst x. exact Hin.
  - assert (~ In str ["1"; "t"; "T"; "TRUE"; "true"; "True"]) as Hn.
    { intros Hin. apply Bool.not_true_iff_false in E. apply E.
      apply existsb_exists. exists str. split; [exact Hin|apply String.eqb_refl]. }
    destruct (existsb (String.eqb str) ["0"; "f"; "F"; "FALSE"; "false"; "False"]);
      split; intros H;
      first [exfalso; exact (Hn H) | simpl in H; discriminate H].
Qed.

(** X12: [Run] starts the HTTPS listener exactly when the log file opens,
    gin takes the integrations and the routes, and APP_HTTPS_ON is one of
    "1", "t", "T", "TRUE", "true", "True"; any other value, "yes" or "on"
    or the empty one among them, leaves HTTPS off. *)
Theorem HTTPS_on_for_six_spellings (portNumber : string) (s : State) :
  goCalls (added s (Run portNumber s)) <> [] <->
  (exists engine, getsToListen s engine) /\
  In (getenv (environ (world s)) "APP_HTTPS_ON")
     ["1"; "t"; "T"; "TRUE"; "true"; "True"].
Proof.
  clear TrimSpace initSubEngine.
  rewrite <- ParseBool_true_iff. fold (httpsOn (environ (world s))).
  unfold getsToListen, logOpens.
  rewrite Run_added. unfold plainEvents, prelude, goCalls.
  run_cases; split;
    try (intros H; exfalso; apply H; reflexivity);
    try (intros [(engine & Ho & Hg) Hon]; discriminate);
    try (intros _; split; [eexists; split; reflexivity|reflexivity]);
    try (intros _; discriminate).
Qed.

(** X13: the port number given to [Run] has no part in the HTTPS listener:
    the call handed to the goroutine is the same for every port number, and
    its address is a non-empty host followed by ":443". *)
Theorem HTTPS_port_is_fixed (p q : string) (s : State) :
  goCalls (added s (Run p s)) = goCalls (added s (Run q s)) /\
  (forall e addr certFile keyFile,
     In (RunTLS e addr certFile keyFile) (goCalls (added s (Run p s))) ->
     exists host, addr = host ++ ":443" /\ host <> "").
Proof.
  clear TrimSpace initSubEngine.
  rewrite !Run_added. unfold plainEvents, prelude, goCalls.
  split.
  - run_cases; reflexivity.
  - intros *. run_cases; intros Hin; simpl in Hin;
      repeat match goal with
      | H : _ \/ _ |- _ => destruct H
      | H : False |- _ => destruct H
      | H : RunTLS _ _ _ _ = RunTLS _ _ _ _ |- _ => injection H as <- <- <- <-
      end;
      (eexists; split; [reflexivity|apply httpsHost_nonempty]).
Qed.

(** ** More of [SetEnv] *)

Lemma fold_setenv_rejected (kvs : list (string * string)) (m : gmap string string)
    (key : string) :
  (forall kv, kv ∈ kvs -> TrimSpace (fst kv) = key ->
              validEnv key (TrimSpace (snd kv)) = false) ->
  fold_left setenvStep kvs m !! key = m !! key.
Proof.
  clear initSubEngine.
  revert m. induction kvs as [|kv kvs IH]; intros m Hall; simpl; [reflexivity|].
  rewrite IH.
  - destruct (String.eqb_spec (TrimSpace (fst kv)) key) as [Hk|Hk].
    + unfold setenvStep. rewrite Hk, (Hall kv); [reflexivity|left|exact Hk].
    + apply setenvStep_other. exact Hk.
  - intros kv' Hin. apply Hall. right. exact Hin.
Qed.

Lemma acceptedFor_spec (key : string) (kvs : list (string * string)) :
  acceptedFor key kvs = true <->
  exists kv, kv ∈ kvs /\ TrimSpace (fst kv) = key /\
             validEnv key (TrimSpace (snd kv)) = true.
Proof.
  clear initSubEngine.
  unfold acceptedFor. rewrite existsb_exists. split.
  - intros (kv & Hin & H). apply andb_true_iff in H. destruct H as [Hk Hv].
    apply String.eqb_eq in Hk. exists kv.
    split; [apply list_elem_of_In; exact Hin | auto].
  - intros (kv & Hin & Hk & Hv). exists kv.
    split; [apply list_elem_of_In; exact Hin|].
    apply andb_true_iff. split; [apply String.eqb_eq; exact Hk | exact Hv].
Qed.

(** X14: an entry that [os.Setenv] rejects is passed over in silence: a
    variable for which every entry trimming to its name is rejected is,
    after [SetEnv], as it was before. The variable with the empty name is
    one of them, whatever the map. *)
Theorem SetEnv_skips_rejected (env : gmap string string) (s : State)
    (o : Outcome unit) :
  SetEnv env s o ->
  (forall key,
     (forall k v, env !! k = Some v -> TrimSpace k = key ->
                  validEnv key (TrimSpace v) = false) ->
     environ (world (final o)) !! key = environ (world s) !! key) /\
  environ (world (final o)) !! "" = environ (world s) !! "".
Proof.
  clear initSubEngine.
  intros (kvs & Hperm & ->). rewrite SetEnv_loop_eq. simpl.
  assert (forall key,
            (forall k v, env !! k = Some v -> TrimSpace k = key ->
                         validEnv key (TrimSpace v) = false) ->
            fold_left setenvStep kvs (environ (world s)) !! key
            = environ (world s) !! key) as Hgen.
  { intros key Hrej. apply fold_setenv_rejected.
    intros [k v] Hin Hk. rewrite Hperm in Hin.
    apply elem_of_map_to_list in Hin. exact (Hrej k v Hin Hk). }
  split; [exact Hgen|]. apply Hgen. intros k v _ _. reflexivity.
Qed.

(** X15: when no two keys of the map trim to the same name, the order in
    which Go visits the map does not matter: every run of [SetEnv] ends
    with the same environment. *)
Theorem SetEnv_order_irrelevant (env : gmap string string) (s : State)
    (o1 o2 : Outcome unit) :
  (forall k1 k2 v1 v2,
     env !! k1 = Some v1 -> env !! k2 = Some v2 ->
     TrimSpace k1 = TrimSpace k2 -> k1 = k2) ->
  SetEnv env s o1 -> SetEnv env s o2 ->
  environ (world (final o1)) = environ (world (final o2)).
Proof.
  clear initSubEngine.
  intros Hinj (kvs1 & Hp1 & ->) (kvs2 & Hp2 & ->).
  rewrite !SetEnv_loop_eq. simpl. apply map_eq. intros key.
  destruct (acceptedFor key kvs1) eqn:Hacc.
  - apply acceptedFor_spec in Hacc.
    assert (exists kv, kv ∈ kvs2 /\ TrimSpace (fst kv) = key /\
                       validEnv key (TrimSpace (snd kv)) = true) as Hacc2.
    { destruct Hacc as (kv & Hin & H). exists kv. split; [|exact H].
      rewrite Hp2, <- Hp1. exact Hin. }
    destruct (fold_setenv_set kvs1 (environ (world s)) key Hacc)
      as ([k1 v1] & Hin1 & Hk1 & Hl1).
    destruct (fold_setenv_set kvs2 (environ (world s)) key Hacc2)
      as ([k2 v2] & Hin2 & Hk2 & Hl2).
    rewrite Hl1, Hl2. simpl in *.
    rewrite Hp1 in Hin1. rewrite Hp2 in Hin2.
    apply elem_of_map_to_list in Hin1. apply elem_of_map_to_list in Hin2.
    assert (k1 = k2) as -> by (apply (Hinj k1 k2 v1 v2); congruence).
    congruence.
  - assert (forall kvs, kvs ≡ₚ kvs1 ->
              fold_left setenvStep kvs (environ (world s)) !! key
              = environ (world s) !! key) as Hout.
    { intros kvs Hp. apply fold_setenv_rejected. intros kv Hin Hk.
      destruct (validEnv key (TrimSpace (snd kv))) eqn:Hv; [|reflexivity].
      assert (acceptedFor key kvs1 = true) as Habs.
      { apply acceptedFor_spec. exists kv. rewrite <- Hp. auto. }
      congruence. }
    rewrite (Hout kvs1) by reflexivity.
    rewrite (Hout kvs2) by (rewrite Hp2, Hp1; reflexivity).
    reflexivity.
Qed.

(** X16: setting and reading back: after [SetEnv], [os.Getenv] of the
    trimmed key of an entry returns the trimmed value of that entry,
    provided [os.Setenv] accepts the pair and no other key of the map
    trims to the same name. *)
Theorem SetEnv_then_Getenv (env : gmap string string) (s : State)
    (o : Outcome unit) (k v : string) :
  SetEnv env s o ->
  env !! k = Some v ->
  validEnv (TrimSpace k) (TrimSpace v) = true ->
  (forall k' v', env !! k' = Some v' -> TrimSpace k' = TrimSpace k -> k' = k) ->
  os_Getenv (TrimSpace k) (final o) = Done (TrimSpace v) (final o).
Proof.
  clear initSubEngine.
  intros (kvs & Hperm & ->) Hkv Hvalid Huniq.
  rewrite os_Getenv_eq. f_equal. rewrite SetEnv_loop_eq. simpl.
  destruct (fold_setenv_set kvs (environ (world s)) (TrimSpace k))
    as ([k' v'] & Hin & Hk' & Hl).
  { exists (k, v). split; [|auto]. rewrite Hperm. now apply elem_of_map_to_list. }
  rewrite Hperm in Hin. apply elem_of_map_to_list in Hin. simpl in *.
  assert (k' = k) as -> by exact (Huniq k' v' Hin Hk').
  assert (v' = v) as -> by congruence.
  unfold getenv. rewrite Hl. reflexivity.
Qed.

(** ** [Bootstrap] *)

Lemma Bootstrap_initSeq (s : State) : Bootstrap s = initSeq subEngines s.
Proof.
  clear TrimSpace joinPaths treeRejects.
  unfold Bootstrap, subEngines, initSeq, bind.
  repeat match goal with
  | |- context [match subEngine_New ?sub ?st with _ => _ end] =>
      destruct (subEngine_New sub st) as [[] ?| |]; try reflexivity
  end.
Qed.

Lemma initSeq_trace (subs : list SubEngine) (s : State) :
  (forall sub w w', initSubEngine sub w = Initialised w' -> trace w' = trace w) ->
  let stopped s' :=
    exists n, (n < length subs)%nat /\
              trace (world s') = (trace (world s) ++ map EvNew (take (S n) subs))%list in
  match initSeq subs s with
  | Done _ s' => trace (world s') = (trace (world s) ++ map EvNew subs)%list
  | Panic _ s' => stopped s'
  | Blocked s' => stopped s'
  end.
Proof.
  clear TrimSpace joinPaths treeRejects.
  intros Ht. cbv zeta. revert s. induction subs as [|sub subs IH]; intros s; simpl.
  - rewrite app_nil_r. reflexivity.
  - unfold bind at 1. unfold subEngine_New at 1.
    unfold bind, emit, modifyWorld, getWorld, panic, block. simpl.
    destruct (initSubEngine sub _) as [w'|v|] eqn:E.
    + specialize (IH (mkState (app s) w')). apply Ht in E. simpl in E. simpl.
      destruct (initSeq subs (mkState (app s) w')) as [a s'|v s'|s']; simpl in *.
      * rewrite IH, E, <- app_assoc. reflexivity.
      * destruct IH as (n & Hn & IH). exists (S n). split; [lia|].
        rewrite IH, E, <- app_assoc. reflexivity.
      * destruct IH as (n & Hn & IH). exists (S n). split; [lia|].
        rewrite IH, E, <- app_assoc. reflexivity.
    + exists 0%nat. split; [lia|]. simpl. destruct subs; reflexivity.
    + exists 0%nat. split; [lia|]. simpl. destruct subs; reflexivity.
Qed.

Lemma initSeq_returns (subs : list SubEngine) (s : State) :
  (forall sub w, exists w', initSubEngine sub w = Initialised w') ->
  exists s', initSeq subs s = Done tt s'.
Proof.
  clear TrimSpace joinPaths treeRejects.
  intros Hi. revert s. induction subs as [|sub subs IH]; intros s; simpl.
  - eexists. reflexivity.
  - unfold bind at 1. unfold subEngine_New at 1.
    unfold bind, emit, modifyWorld, getWorld. simpl.
    match goal with
    | |- context [initSubEngine sub ?w] =>
        destruct (Hi sub w) as [w' ->]
    end.
    apply IH.
Qed.

(** X17: provided the initialisers that return leave the trace alone,
    [Bootstrap] initialises the package integrator, the middlewares
    engine, the routing engine, the database and the cache, in this order,
    and stops at the first initialiser that panics or does not come back:
    the sub-engines after it are not initialised. When every initialiser
    returns, so does [Bootstrap]. *)
Theorem Bootstrap_in_order (s : State) :
  (forall sub w w', initSubEngine sub w = Initialised w' -> trace w' = trace w) ->
  (forall s', Bootstrap s = Done tt s' ->
     added s (Bootstrap s)
     = [EvNew pkgintegrator; EvNew middlewaresengine; EvNew routing;
        EvNew database; EvNew cache]) /\
  (forall v s', Bootstrap s = Panic v s' ->
     exists n, (n < 5)%nat /\
       added s (Bootstrap s) = map EvNew (take (S n) subEngines)) /\
  (forall s', Bootstrap s = Blocked s' ->
     exists n, (n < 5)%nat /\
       added s (Bootstrap s) = map EvNew (take (S n) subEngines)) /\
  ((forall sub w, exists w', initSubEngine sub w = Initialised w') ->
   exists s', Bootstrap s = Done tt s').
Proof.
  clear TrimSpace joinPaths treeRejects.
  intros Ht. pose proof (initSeq_trace subEngines s Ht) as H.
  cbv zeta in H. rewrite <- Bootstrap_initSeq in H.
  split; [|split; [|split]].
  - intros s' E. rewrite E in H |- *. apply added_app. exact H.
  - intros v s' E. rewrite E in H |- *. destruct H as (n & Hn & H).
    exists n. split; [exact Hn|]. apply added_app. exact H.
  - intros s' E. rewrite E in H |- *. destruct H as (n & Hn & H).
    exists n. split; [exact Hn|]. apply added_app. exact H.
  - intros Hi. rewrite Bootstrap_initSeq. apply initSeq_returns. exact Hi.
Qed.

(** ** Case *)

(** X18: [SetAppMode] compares the mode as it is written: a string with a
    capital letter anywhere, "Release" or "DEBUG" say, is not one of gin's
    modes and puts gin in test mode. *)
Theorem SetAppMode_case_sensitive (mode : string) (s : State) :
  strings.ToLower mode <> mode ->
  exists s', SetAppMode mode s = Done tt s' /\ modeName (world s') = "test".
Proof.
  clear TrimSpace initSubEngine joinPaths treeRejects.
  intros Hcase. unfold SetAppMode, gin.ReleaseMode, gin.TestMode, gin.DebugMode.
  destruct (String.eqb_spec mode "release") as [->|_];
    [contradiction Hcase; reflexivity|].
  destruct (String.eqb_spec mode "test") as [->|_];
    [contradiction Hcase; reflexivity|].
  destruct (String.eqb_spec mode "debug") as [->|_];
    [contradiction Hcase; reflexivity|].
  eexists. split; [cbv; reflexivity | reflexivity].
Qed.

End Core.

Arguments Done {FeaturesRef UserHandler A}.
Arguments Panic {FeaturesRef UserHandler A}.
Arguments Blocked {FeaturesRef UserHandler A}.

(** ** Trimming ASCII white space *)

Module TrimFacts.
Import strings.

Lemma append_cons (c : ascii) (l x : string) :
  String c l ++ x = String c (l ++ x).
Proof. reflexivity. Qed.

Lemma append_empty (x : string) : "" ++ x = x.
Proof. reflexivity. Qed.

Lemma TrimLeftASCII_split (s : string) :
  exists l, s = l ++ TrimLeftASCII s /\ allSpace l = true.
Proof.
  induction s as [|c s IH]; simpl.
  - exists "". split; reflexivity.
  - destruct (asciiSpace c) eqn:E.
    + destruct IH as (l & Hl & Hs). exists (String c l).
      rewrite append_cons. simpl. rewrite E, Hs.
      split; [f_equal; exact Hl | reflexivity].
    + exists "". split; reflexivity.
Qed.

Lemma TrimLeftASCII_start (s : string) :
  startsWithSpace (TrimLeftASCII s) = false.
Proof.
  induction s as [|c s IH]; simpl; [reflexivity|].
  destruct (asciiSpace c) eqn:E; [exact IH | simpl; exact E].
Qed.

Lemma TrimRightASCII_split (s : string) :
  exists r, s = TrimRightASCII s ++ r /\ allSpace r = true.
Proof.
  induction s as [|c s (r & Hr & Hs)]; simpl.
  - exists "". split; reflexivity.
  - destruct (TrimRightASCII s) as [|d t] eqn:Et.
    + rewrite append_empty in Hr. subst r. destruct (asciiSpace c) eqn:E.
      * exists (String c s). simpl. rewrite E, Hs. split; reflexivity.
      * exists s. split; [reflexivity | exact Hs].
    + exists r. rewrite append_cons. split; [f_equal; exact Hr | exact Hs].
Qed.

Lemma TrimRightASCII_end (s : string) :
  endsWithSpace (TrimRightASCII s) = false.
Proof.
  induction s as [|c s IH]; simpl; [reflexivity|].
  destruct (TrimRightASCII s) as [|d t] eqn:Et.
  - destruct (asciiSpace c) eqn:E; simpl; [reflexivity | exact E].
  - exact IH.
Qed.

Lemma TrimRightASCII_start (s : string) :
  startsWithSpace s = false -> startsWithSpace (TrimRightASCII s) = false.
Proof.
  destruct s as [|c s]; simpl; [reflexivity|]. intros E.
  destruct (TrimRightASCII s); [rewrite E|]; simpl; exact E.
Qed.

(** [TrimSpaceASCII] takes white space off both ends, and all of it. *)
Lemma TrimSpaceASCII_spec (s : string) :
  (exists l r, s = l ++ TrimSpaceASCII s ++ r /\
               allSpace l = true /\ allSpace r = true) /\
  startsWithSpace (TrimSpaceASCII s) = false /\
  endsWithSpace (TrimSpaceASCII s) = false.
Proof.
  unfold TrimSpaceASCII. split; [|split].
  - destruct (TrimLeftASCII_split s) as (l & Hl & Hls).
    destruct (TrimRightASCII_split (TrimLeftASCII s)) as (r & Hr & Hrs).
    exists l, r. split; [|split; assumption].
    rewrite <- Hr. exact Hl.
  - apply TrimRightASCII_start, TrimLeftASCII_start.
  - apply TrimRightASCII_end.
Qed.

(** X20: with that trimming, no call of [SetEnv] to [os.Setenv] carries
    white space at either end of the key or of the value. *)
Lemma SetEnv_ASCII_calls {FeaturesRef UserHandler : Type}
    (env : gmap string string) (s : @State FeaturesRef UserHandler)
    (o : Outcome unit) (key value : string) :
  SetEnv TrimSpaceASCII env s o ->
  In (EvSetenv key value) (added s o) ->
  startsWithSpace key = false /\ endsWithSpace key = false /\
  startsWithSpace value = false /\ endsWithSpace value = false.
Proof.
  intros (kvs & _ & ->) Hin.
  rewrite SetEnv_loop_eq in Hin.
  rewrite (added_app _ _ (map (setenvCall TrimSpaceASCII) kvs)) in Hin
    by reflexivity.
  apply in_map_iff in Hin. destruct Hin as ([k v] & [= <- <-] & _). simpl.
  pose proof (TrimSpaceASCII_spec k) as (_ & ? & ?).
  pose proof (TrimSpaceASCII_spec v) as (_ & ? & ?). auto.
Qed.

Lemma TrimSpaceASCII_blank (s : string) :
  allSpace s = true -> TrimSpaceASCII s = "".
Proof.
  unfold TrimSpaceASCII. intros Hs.
  assert (TrimLeftASCII s = "") as ->; [|reflexivity].
  induction s as [|c s IH]; simpl in *; [reflexivity|].
  apply andb_true_iff in Hs. destruct Hs as [Hc Hs]. rewrite Hc. exact (IH Hs).
Qed.

(** X19: with that trimming, a map whose keys are all blank (the empty map
    among them) sets nothing: [SetEnv] returns and the environment is as it
    was. *)
Theorem SetEnv_blank_keys {FeaturesRef UserHandler : Type}
    (env : gmap string string) (s : @State FeaturesRef UserHandler)
    (o : Outcome unit) :
  SetEnv TrimSpaceASCII env s o ->
  (forall k v, env !! k = Some v -> allSpace k = true) ->
  (exists s', o = Done tt s') /\
  environ (world (final o)) = environ (world s).
Proof.
  intros (kvs & Hperm & ->) Hblank. rewrite SetEnv_loop_eq.
  split; [eexists; reflexivity|]. simpl. apply map_eq. intros key.
  apply fold_setenv_rejected. intros [k v] Hin Hk. simpl in *.
  rewrite Hperm in Hin. apply elem_of_map_to_list in Hin.
  rewrite (TrimSpaceASCII_blank k (Hblank k v Hin)) in Hk. subst key.
  reflexivity.
Qed.

End TrimFacts.

(** ** Concrete runs *)

Module Examples.

(** The sample states of an application whose features are a unit and
    whose handlers are numbered. *)
Local Abbreviation ping := (ping 7%nat).
Local Abbreviation PING := (PING 7%nat).
Local Abbreviation plain := (plain tt 7%nat).
Local Abbreviation secured := (secured tt 7%nat).
Local Abbreviation unwritable := (unwritable tt 7%nat).
Local Abbreviation doubled := (doubled tt 7%nat).
Local Abbreviation securedUnwritable := (securedUnwritable tt 7%nat).
Local Abbreviation securedDoubled := (securedDoubled tt 7%nat).
Local Abbreviation httpOnly := (httpOnly tt 7%nat).
Local Abbreviation httpsOnly := (httpsOnly tt 7%nat).

(** The sample runs take gin's two functions on simple routes. *)
Local Abbreviation withGin f := (f gin.joinClean gin.noWildcards).

(** The engine gin makes of the routes of [plain] and of [secured]. *)
Local Abbreviation pingEngine :=
  (gin.mkEngine [gin.Logger; gin.Recovery; gin.Custom 7]
     [(gin.GET, "/ping", [gin.Logger; gin.Recovery; gin.Custom 7; gin.Custom 7])]).

Example plain_run :
  added plain (withGin Run "" plain) =
  [EvOpenFile "logs/app.log" 1088 644; EvRun pingEngine "localhost:80"].
Proof. vm_compute. reflexivity. Qed.

Example secured_run :
  added secured (withGin Run "8080" secured) =
  [EvOpenFile "logs/app.log" 1088 644;
   EvGo (RunTLS pingEngine "secure.example:443" "" "");
   EvRun (gin.mkEngine [gin.secureFunc] []) "www.example:8080";
   EvRun pingEngine "www.example:8080";
   EvClose "logs/app.log"].
Proof. vm_compute. reflexivity. Qed.

Example unwritable_run :
  exists s',
    withGin Run "" unwritable = Panic "open logs/app.log: permission denied" s'.
Proof. eexists. vm_compute. reflexivity. Qed.

(** The second "/ping" is gin's panic, after which the log file is
    closed. *)
Example doubled_run :
  (exists s',
     withGin Run "" doubled =
     Panic "handlers are already registered for path '/ping'" s') /\
  added doubled (withGin Run "" doubled) =
  [EvOpenFile "logs/app.log" 1088 644; EvClose "logs/app.log"].
Proof. split; [eexists|]; vm_compute; reflexivity. Qed.

Example TrimSpaceASCII_example :
  strings.TrimSpaceASCII "  APP_ENV	 " = "APP_ENV" /\
  strings.TrimSpaceASCII "a b" = "a b" /\
  strings.TrimSpaceASCII "   " = "".
Proof. repeat split. Qed.

Lemma plain_listens : withGin getsToListen plain pingEngine.
Proof. split; vm_compute; reflexivity. Qed.

Lemma secured_listens : withGin getsToListen secured pingEngine.
Proof. split; vm_compute; reflexivity. Qed.

(** Whatever gin's two functions do, the runs on the unwritable log file
    and on the doubled route do not get to listen. *)
Lemma unwritable_stops joinPaths treeRejects engine :
  ~ getsToListen joinPaths treeRejects unwritable engine.
Proof. intros [H _]. discriminate H. Qed.

Lemma securedUnwritable_stops joinPaths treeRejects engine :
  ~ getsToListen joinPaths treeRejects securedUnwritable engine.
Proof. intros [H _]. discriminate H. Qed.

Lemma doubled_stops joinPaths treeRejects engine :
  ~ getsToListen joinPaths treeRejects doubled engine.
Proof.
  intros [_ H]. unfold appEngine in H.
  rewrite integrate_eq in H. simpl in H.
  match type of H with
  | register _ _ (?r :: ?r :: ?rs) ?e = _ =>
      destruct (register_twice joinPaths treeRejects r rs e) as [err Herr];
        [simpl; auto | rewrite Herr in H; discriminate H]
  end.
Qed.

Lemma securedDoubled_stops joinPaths treeRejects engine :
  ~ getsToListen joinPaths treeRejects securedDoubled engine.
Proof.
  intros [_ H]. unfold appEngine in H.
  rewrite integrate_eq in H. simpl in H.
  match type of H with
  | register _ _ (?r :: ?r :: ?rs) ?e = _ =>
      destruct (register_twice joinPaths treeRejects r rs e) as [err Herr];
        [simpl; auto | rewrite Herr in H; discriminate H]
  end.
Qed.

(** *** Route dispatch *)

Lemma handleRoute_registers_once_witness :
  In (Method ping) ["get"; "post"; "delete"; "patch"; "put"; "options"; "head"] /\
  exists v,
    Method ping = strings.ToLower (gin.methodName v) /\
    withGin handleRoute ping gin.Default plain =
      withGin engine_handle v gin.Default (Path ping) (Handlers ping) plain /\
    (withGin ginAccepts v gin.Default (Path ping) (Handlers ping) = true ->
     exists e',
       withGin handleRoute ping gin.Default plain = Done e' plain /\
       gin.trees e' =
         (gin.trees gin.Default ++ [routeEntry gin.joinClean v gin.Default ping])%list /\
       length (gin.trees e') = S (length (gin.trees (@gin.Default nat))) /\
       gin.Handlers e' = gin.Handlers gin.Default) /\
    (withGin ginAccepts v gin.Default (Path ping) (Handlers ping) = false ->
     exists err, withGin handleRoute ping gin.Default plain = Panic err plain).
Proof.
  assert (In (Method ping)
            ["get"; "post"; "delete"; "patch"; "put"; "options"; "head"]) as Hin
    by (simpl; auto).
  split; [exact Hin|].
  exact (withGin handleRoute_registers_once ping gin.Default plain Hin).
Defined.

(** C1 as the claim states it fails on an engine that has the route
    already: the first "/ping" is registered, the second is gin's panic,
    and that whatever gin's two functions do. *)
Lemma handleRoute_second_registration_panics :
  In (Method ping) ["get"; "post"; "delete"; "patch"; "put"; "options"; "head"] /\
  (exists e1,
     withGin handleRoute ping gin.Default plain = Done e1 plain /\
     gin.trees e1 =
       [(gin.GET, "/ping", [gin.Logger; gin.Recovery; gin.Custom 7])] /\
     withGin handleRoute ping e1 plain =
       Panic "handlers are already registered for path '/ping'" plain) /\
  ~ (exists joinPaths treeRejects e1 e2,
       handleRoute joinPaths treeRejects ping gin.Default plain = Done e1 plain /\
       handleRoute joinPaths treeRejects ping e1 plain = Done e2 plain).
Proof.
  split; [simpl; auto|]. split.
  - eexists. split; [vm_compute; reflexivity|].
    split; vm_compute; reflexivity.
  - intros (joinPaths & treeRejects & e1 & e2 & H1 & H2).
    destruct (handleRoute_twice joinPaths treeRejects ping gin.Default e1
                plain plain) as [err Herr]; [simpl; auto | exact H1 |].
    rewrite Herr in H2. discriminate H2.
Qed.

Lemma handleRoute_drops_unrecognized_witness :
  ~ In (Method PING) ["get"; "post"; "delete"; "patch"; "put"; "options"; "head"] /\
  withGin handleRoute PING gin.Default plain = Done gin.Default plain.
Proof.
  assert (~ In (Method PING)
              ["get"; "post"; "delete"; "patch"; "put"; "options"; "head"]) as Hn
    by (simpl; intuition discriminate).
  split; [exact Hn|].
  exact (withGin handleRoute_drops_unrecognized PING gin.Default plain Hn).
Defined.

(** *** Hosts *)

(** The four combinations of the two hosts. *)
Lemma host_fallback_witness :
  (getHTTPSHost secured = Done "secure.example" secured /\
   getHTTPHost secured = Done "www.example" secured) /\
  (getHTTPSHost httpsOnly = Done "secure.example" httpsOnly /\
   getHTTPHost httpsOnly = Done "localhost" httpsOnly) /\
  (getHTTPSHost httpOnly = Done "www.example" httpOnly /\
   getHTTPHost httpOnly = Done "www.example" httpOnly) /\
  (getHTTPSHost plain = Done "localhost" plain /\
   getHTTPHost plain = Done "localhost" plain).
Proof.
  repeat apply conj.
  - apply (host_fallback secured). discriminate.
  - apply (host_fallback secured). discriminate.
  - apply (host_fallback httpsOnly). discriminate.
  - apply (host_fallback httpsOnly). reflexivity.
  - apply (proj1 (proj2 (host_fallback httpOnly))); [reflexivity|discriminate].
  - apply (host_fallback httpOnly). discriminate.
  - apply (host_fallback plain); reflexivity.
  - apply (host_fallback plain). reflexivity.
Defined.

(** *** The port *)

Lemma Run_port_witness :
  withGin getsToListen plain pingEngine /\
  (forall port, withGin usesPort "" plain port <-> port = "80") /\
  (forall port, withGin usesPort "8080" plain port <-> port = "8080") /\
  (forall port, ~ withGin usesPort "8080" unwritable port).
Proof.
  split; [exact plain_listens|]. split; [|split].
  - apply (proj1 (withGin Run_port "" plain) pingEngine plain_listens).
    reflexivity.
  - apply (proj1 (withGin Run_port "8080" plain) pingEngine plain_listens).
    discriminate.
  - apply (proj2 (withGin Run_port "8080" unwritable)).
    exact (withGin unwritable_stops).
Defined.

(** C4 as the claim states it fails where [Run] does not get to listen:
    with the log file that does not open, and with the route that comes
    twice, no port is used, neither "80" for the empty port number nor the
    port number given. *)
Lemma Run_port_none_without_listener :
  ~ (exists joinPaths treeRejects, usesPort joinPaths treeRejects "" unwritable "80") /\
  ~ (exists joinPaths treeRejects,
       usesPort joinPaths treeRejects "8080" unwritable "8080") /\
  ~ (exists joinPaths treeRejects, usesPort joinPaths treeRejects "" doubled "80") /\
  ~ (exists joinPaths treeRejects,
       usesPort joinPaths treeRejects "8080" doubled "8080").
Proof.
  repeat apply conj; intros (joinPaths & treeRejects & host & _ & Hin).
  - rewrite (Run_no_listener joinPaths treeRejects "" unwritable
               (unwritable_stops joinPaths treeRejects)) in Hin.
    destruct Hin.
  - rewrite (Run_no_listener joinPaths treeRejects "8080" unwritable
               (unwritable_stops joinPaths treeRejects)) in Hin.
    destruct Hin.
  - rewrite (Run_no_listener joinPaths treeRejects "" doubled
               (doubled_stops joinPaths treeRejects)) in Hin.
    destruct Hin.
  - rewrite (Run_no_listener joinPaths treeRejects "8080" doubled
               (doubled_stops joinPaths treeRejects)) in Hin.
    destruct Hin.
Qed.

(** *** The log file *)

Lemma Run_panics_when_log_fails_witness :
  openFileResult (world unwritable) "logs/app.log" openFlag 644 =
    Some "open logs/app.log: permission denied" /\
  withGin Run "" unwritable =
  Panic "open logs/app.log: permission denied"
    (mkState (app unwritable)
       (set_trace (trace (world unwritable) ++ [EvOpenFile "logs/app.log" openFlag 644])
          (world unwritable))).
Proof.
  split; [reflexivity|].
  apply (withGin Run_panics_when_log_fails "" unwritable). reflexivity.
Defined.

(** *** The HTTPS listener *)

Lemma Run_spawns_TLS_and_drops_result_witness :
  withGin getsToListen secured pingEngine /\
  fst (strconv.ParseBool (getenv (environ (world secured)) "APP_HTTPS_ON")) = true /\
  exists host,
    getHTTPSHost secured = Done host secured /\
    goCalls (added secured (withGin Run "8080" secured)) =
      [RunTLS pingEngine (host ++ ":443")
         (getenv (environ (world secured)) "APP_HTTPS_CERT_FILE_PATH")
         (getenv (environ (world secured)) "APP_HTTPS_KEY_FILE_PATH")] /\
    returned (world (final (withGin Run "8080" secured))) =
      (returned (world secured) ++
       [(RunTLS pingEngine (host ++ ":443")
           (getenv (environ (world secured)) "APP_HTTPS_CERT_FILE_PATH")
           (getenv (environ (world secured)) "APP_HTTPS_KEY_FILE_PATH"),
         taskResult (world secured)
           (RunTLS pingEngine (host ++ ":443")
              (getenv (environ (world secured)) "APP_HTTPS_CERT_FILE_PATH")
              (getenv (environ (world secured)) "APP_HTTPS_KEY_FILE_PATH")))])%list.
Proof.
  split; [exact secured_listens|]. split; [reflexivity|].
  apply (proj1 (withGin Run_spawns_TLS_and_drops_result "8080" secured)
           pingEngine secured_listens).
  reflexivity.
Defined.

(** The HTTPS listener that fails: the failure is recorded and changes
    nothing else. *)
Example failed_TLS_unobserved :
  let failing := withTaskResult (fun _ => Some "listen tcp :443: bind: permission denied")
                   secured in
  returned (world (final (withGin Run "8080" failing))) =
    [(RunTLS pingEngine "secure.example:443" "" "",
      Some "listen tcp :443: bind: permission denied")] /\
  added failing (withGin Run "8080" failing) =
  added secured (withGin Run "8080" secured).
Proof. split; vm_compute; reflexivity. Qed.

(** C7 as the claim states it fails where [Run] does not get to the [go]
    statement: HTTPS is on, and with the log file that does not open or
    the route that comes twice nothing is handed to a goroutine. *)
Lemma HTTPS_on_without_listener :
  fst (strconv.ParseBool
         (getenv (environ (world securedUnwritable)) "APP_HTTPS_ON")) = true /\
  ~ (exists joinPaths treeRejects,
       goCalls (added securedUnwritable
                  (Run joinPaths treeRejects "" securedUnwritable)) <> []) /\
  fst (strconv.ParseBool
         (getenv (environ (world securedDoubled)) "APP_HTTPS_ON")) = true /\
  ~ (exists joinPaths treeRejects,
       goCalls (added securedDoubled
                  (Run joinPaths treeRejects "" securedDoubled)) <> []).
Proof.
  repeat apply conj; try reflexivity;
    intros (joinPaths & treeRejects & H); apply H.
  - destruct (Run_added_short joinPaths treeRejects "" securedUnwritable
                (securedUnwritable_stops joinPaths treeRejects)) as [-> | ->];
      reflexivity.
  - destruct (Run_added_short joinPaths treeRejects "" securedDoubled
                (securedDoubled_stops joinPaths treeRejects)) as [-> | ->];
      reflexivity.
Qed.

(** *** The redirect *)

Lemma redirect_iff_both_switches_witness :
  redirectStarted secured (withGin Run "8080" secured) /\
  ~ redirectStarted plain (withGin Run "8080" plain).
Proof.
  split.
  - apply (proj1 (withGin redirect_iff_both_switches "8080" secured)).
    split; [exists pingEngine; exact secured_listens|]. split; reflexivity.
  - intros H.
    apply (proj1 (withGin redirect_iff_both_switches "8080" plain)) in H.
    destruct H as (_ & H & _). discriminate H.
Defined.

(** C10 as the claim states it fails where [Run] does not get to the
    redirect: both switches parse as true, and with the log file that does
    not open or the route that comes twice the redirect engine is not
    started. *)
Lemma both_switches_without_redirect :
  (fst (strconv.ParseBool
          (getenv (environ (world securedUnwritable)) "APP_HTTPS_ON")) = true /\
   fst (strconv.ParseBool
          (getenv (environ (world securedUnwritable))
             "APP_REDIRECT_HTTP_TO_HTTPS")) = true) /\
  ~ (exists joinPaths treeRejects,
       redirectStarted securedUnwritable
         (Run joinPaths treeRejects "" securedUnwritable)) /\
  (fst (strconv.ParseBool
          (getenv (environ (world securedDoubled)) "APP_HTTPS_ON")) = true /\
   fst (strconv.ParseBool
          (getenv (environ (world securedDoubled))
             "APP_REDIRECT_HTTP_TO_HTTPS")) = true) /\
  ~ (exists joinPaths treeRejects,
       redirectStarted securedDoubled
         (Run joinPaths treeRejects "" securedDoubled)).
Proof.
  repeat apply conj; try reflexivity;
    intros (joinPaths & treeRejects & addr & Hin).
  - destruct (Run_added_short joinPaths treeRejects "" securedUnwritable
                (securedUnwritable_stops joinPaths treeRejects)) as [E|E];
      rewrite E in Hin; simpl in Hin; intuition discriminate.
  - destruct (Run_added_short joinPaths treeRejects "" securedDoubled
                (securedDoubled_stops joinPaths treeRejects)) as [E|E];
      rewrite E in Hin; simpl in Hin; intuition discriminate.
Qed.

(** *** The environment *)

(** [SetEnv] on a map with white space around a key and its value. *)
Example SetEnv_example :
  exists s',
    SetEnv_loop strings.TrimSpaceASCII
      (map_to_list ({[ " APP_ENV " := "  local" ]} : gmap string string)) plain
    = Done tt s' /\
    trace (world s') = [EvSetenv "APP_ENV" "local"] /\
    environ (world s') !! "APP_ENV" = Some "local" /\
    environ (world s') !! " APP_ENV " = None.
Proof. eexists. split; [vm_compute; reflexivity|]. repeat split. Qed.

Local Abbreviation padded := ({[ " APP_ENV " := "  local" ]} : gmap string string).
Local Abbreviation blank := ({[ "  " := "x" ]} : gmap string string).

Lemma padded_SetEnv :
  SetEnv strings.TrimSpaceASCII padded plain
    (SetEnv_loop strings.TrimSpaceASCII (map_to_list padded) plain).
Proof. exists (map_to_list padded). split; reflexivity. Qed.

Lemma blank_SetEnv :
  SetEnv strings.TrimSpaceASCII blank plain
    (SetEnv_loop strings.TrimSpaceASCII (map_to_list blank) plain).
Proof. exists (map_to_list blank). split; reflexivity. Qed.

Lemma SetEnv_skips_rejected_witness :
  environ (world (final (SetEnv_loop strings.TrimSpaceASCII (map_to_list blank) plain)))
    !! "" = environ (world plain) !! "".
Proof.
  apply (SetEnv_skips_rejected strings.TrimSpaceASCII blank plain _ blank_SetEnv).
Defined.

Local Abbreviation pair := (<[ " A " := "x" ]> {[ "B" := " y" ]} : gmap string string).

(** Two entries, visited in one order and in the other. *)
Lemma SetEnv_order_irrelevant_witness :
  environ (world (final (SetEnv_loop strings.TrimSpaceASCII
                           (map_to_list pair) plain)))
  = environ (world (final (SetEnv_loop strings.TrimSpaceASCII
                             (reverse (map_to_list pair)) plain))).
Proof.
  apply (SetEnv_order_irrelevant strings.TrimSpaceASCII pair plain).
  - intros k1 k2 v1 v2 H1 H2 Hk.
    apply lookup_insert_Some in H1. apply lookup_insert_Some in H2.
    destruct H1 as [[<- _]|[_ H1]], H2 as [[<- _]|[_ H2]];
      try apply lookup_singleton_Some in H1;
      try apply lookup_singleton_Some in H2;
      try destruct H1 as [<- _]; try destruct H2 as [<- _];
      first [reflexivity | vm_compute in Hk; discriminate Hk].
  - exists (map_to_list pair). split; reflexivity.
  - exists (reverse (map_to_list pair)).
    split; [apply reverse_Permutation | reflexivity].
Defined.

Lemma SetEnv_then_Getenv_witness :
  let o := SetEnv_loop strings.TrimSpaceASCII (map_to_list padded) plain in
  os_Getenv "APP_ENV" (final o) = Done "local" (final o).
Proof.
  apply (SetEnv_then_Getenv strings.TrimSpaceASCII padded plain _
           " APP_ENV " "  local" padded_SetEnv).
  - reflexivity.
  - reflexivity.
  - intros k' v' H _. apply lookup_singleton_Some in H. destruct H as [<- _].
    reflexivity.
Defined.

Lemma SetEnv_blank_keys_witness :
  let o := SetEnv_loop strings.TrimSpaceASCII (map_to_list blank) plain in
  (exists s', o = Done tt s') /\ environ (world (final o)) = environ (world plain).
Proof.
  apply (TrimFacts.SetEnv_blank_keys blank plain _ blank_SetEnv).
  intros k v H. apply lookup_singleton_Some in H. destruct H as [<- _].
  reflexivity.
Defined.

Lemma SetEnv_ASCII_calls_witness :
  strings.startsWithSpace "APP_ENV" = false /\
  strings.endsWithSpace "APP_ENV" = false /\
  strings.startsWithSpace "local" = false /\
  strings.endsWithSpace "local" = false.
Proof.
  apply (TrimFacts.SetEnv_ASCII_calls padded plain _ "APP_ENV" "local"
           padded_SetEnv).
  vm_compute. left. reflexivity.
Defined.

(** *** Engines *)

Lemma handleRoute_drops_other_case_witness :
  strings.ToLower (Method PING) <> Method PING /\
  withGin handleRoute PING gin.Default plain = Done gin.Default plain.
Proof.
  assert (strings.ToLower (Method PING) <> Method PING) as Hcase by discriminate.
  split; [exact Hcase|].
  exact (withGin handleRoute_drops_other_case PING gin.Default plain Hcase).
Defined.

(** The routes of [secured]: "/ping" under GET is registered, the same
    under "GET" in capitals is dropped. *)
Example registerRoutes_example :
  withGin registerRoutes (router (world secured)) gin.Default secured =
  Done (gin.mkEngine [gin.Logger; gin.Recovery]
          [(gin.GET, "/ping", [gin.Logger; gin.Recovery; gin.Custom 7])])
       secured.
Proof. vm_compute. reflexivity. Qed.

(** The route of [doubled] comes twice: [registerRoutes] panics. *)
Lemma registerRoutes_registers_recognized_witness :
  exists err, withGin registerRoutes (router (world doubled)) gin.Default doubled
              = Panic err doubled.
Proof.
  apply (proj2 (withGin registerRoutes_registers_recognized
                  (router (world doubled)) gin.Default doubled)).
  - constructor.
  - vm_compute. intros H. apply NoDup_cons in H. destruct H as [H _].
    apply H. left.
Defined.

(** Sixty handler functions on gin's default engine are taken, the
    sixty-first is the panic. *)
Lemma IntegratePackages_appends_witness :
  (exists e',
     IntegratePackages gin.Default (repeat (gin.Custom 7) 60) plain = Done e' plain /\
     gin.Handlers e' =
       (gin.Handlers gin.Default ++ repeat (gin.Custom 7) 60)%list /\
     gin.trees e' = gin.trees gin.Default) /\
  IntegratePackages gin.Default (repeat (gin.Custom 7) 61) plain =
  Panic "too many handlers" plain.
Proof.
  split.
  - apply (proj1 (IntegratePackages_appends gin.Default
                    (repeat (gin.Custom 7) 60) plain)).
    right. vm_compute. lia.
  - apply (proj2 (IntegratePackages_appends gin.Default
                    (repeat (gin.Custom 7) 61) plain)).
    + discriminate.
    + vm_compute. lia.
Defined.

Lemma useMiddlewares_appends_witness :
  (exists e',
     useMiddlewares gin.Default
       (withMiddlewares (repeat (gin.Custom 7) 60) plain) = Done e' 
       (withMiddlewares (repeat (gin.Custom 7) 60) plain) /\
     gin.Handlers e' =
       (gin.Handlers gin.Default ++ repeat (gin.Custom 7) 60)%list /\
     gin.trees e' = gin.trees gin.Default) /\
  useMiddlewares gin.Default (withMiddlewares (repeat (gin.Custom 7) 61) plain) =
  Panic "too many handlers" (withMiddlewares (repeat (gin.Custom 7) 61) plain).
Proof.
  split.
  - apply (proj1 (useMiddlewares_appends gin.Default
                    (withMiddlewares (repeat (gin.Custom 7) 60) plain))).
    right. vm_compute. lia.
  - apply (proj2 (useMiddlewares_appends gin.Default
                    (withMiddlewares (repeat (gin.Custom 7) 61) plain))).
    + discriminate.
    + vm_compute. lia.
Defined.

Lemma Run_routes_carry_integrations_witness :
  withGin appEngine (world secured) = inl pingEngine /\
  gin.Handlers pingEngine = [gin.Logger; gin.Recovery; gin.Custom 7] /\
  gin.trees pingEngine =
    routeEntries gin.joinClean [gin.Logger; gin.Recovery; gin.Custom 7]
      (GetRoutes (router (world secured))).
Proof.
  assert (withGin appEngine (world secured) = inl pingEngine) as H
    by (vm_compute; reflexivity).
  split; [exact H|].
  pose proof (withGin Run_routes_carry_integrations (world secured) pingEngine H)
    as (Hh & Ht & _).
  split; [exact Hh | exact Ht].
Defined.

(** *** More of [Run] *)

Lemma redirect_comes_first_witness :
  (exists s', withGin Run "8080" secured = Done tt s') /\
  runCalls (added secured (withGin Run "8080" secured)) =
  [(redirectEngine, plainAddr "8080" (environ (world secured)));
   (pingEngine, plainAddr "8080" (environ (world secured)))].
Proof.
  assert (httpsOn (environ (world secured)) = true) as Hon by reflexivity.
  assert (redirectToHTTPS (environ (world secured)) = true) as Hre by reflexivity.
  apply (proj2 (withGin redirect_comes_first "8080" secured pingEngine
                  secured_listens Hon Hre)).
  intros t. discriminate.
Defined.

Lemma Run_closes_log_on_return_witness :
  exists evs,
    added secured (withGin Run "8080" secured) = (evs ++ [EvClose "logs/app.log"])%list /\
    ~ In (EvClose "logs/app.log") evs.
Proof.
  apply (proj1 (withGin Run_closes_log_on_return "8080" secured)
           (final (withGin Run "8080" secured))).
  vm_compute. reflexivity.
Defined.

Lemma Run_one_plain_listener_witness :
  runCalls (added plain (withGin Run "" plain)) =
    [(pingEngine, plainAddr "" (environ (world plain)))] /\
  (runCalls (added doubled (withGin Run "" doubled)) = [] /\
   goCalls (added doubled (withGin Run "" doubled)) = []).
Proof.
  split.
  - apply (proj1 (withGin Run_one_plain_listener "" plain) pingEngine
             plain_listens).
    reflexivity.
  - apply (proj2 (withGin Run_one_plain_listener "" doubled)).
    exact (withGin doubled_stops).
Defined.

Lemma HTTPS_on_for_six_spellings_witness :
  goCalls (added secured (withGin Run "8080" secured)) <> [].
Proof.
  apply (withGin HTTPS_on_for_six_spellings "8080" secured).
  split; [exists pingEngine; exact secured_listens|].
  vm_compute. auto 10.
Defined.

(** *** [Bootstrap] and the mode *)

(** Initialisers that return at once; and the database that does not come
    back. *)
Local Abbreviation returning :=
  (fun (_ : SubEngine) (w : @World nat) => Initialised w).

Local Abbreviation stuckDatabase :=
  (fun (sub : SubEngine) (w : @World nat) =>
     match sub with database => Stuck | _ => Initialised w end).

Lemma Bootstrap_in_order_witness :
  added plain (Bootstrap returning plain)
  = [EvNew pkgintegrator; EvNew middlewaresengine; EvNew routing;
     EvNew database; EvNew cache].
Proof.
  assert (forall (sub : SubEngine) (w w' : @World nat),
            returning sub w = Initialised w' -> trace w' = trace w) as Ht
    by (intros sub w w' [= <-]; reflexivity).
  apply (proj1 (Bootstrap_in_order returning plain Ht)
           (final (Bootstrap returning plain))).
  reflexivity.
Defined.

Example Bootstrap_stuck :
  (exists s', Bootstrap stuckDatabase plain = Blocked s') /\
  added plain (Bootstrap stuckDatabase plain)
  = [EvNew pkgintegrator; EvNew middlewaresengine; EvNew routing; EvNew database].
Proof. split; [eexists|]; reflexivity. Qed.

Lemma SetAppMode_case_sensitive_witness :
  strings.ToLower "Release" <> "Release" /\
  exists s', SetAppMode "Release" plain = Done tt s' /\ modeName (world s') = "test".
Proof.
  assert (strings.ToLower "Release" <> "Release") as Hcase by discriminate.
  split; [exact Hcase|].
  exact (SetAppMode_case_sensitive "Release" plain Hcase).
Defined.

End Examples.
